(** * wikiparsercli: the command-line front end of the wiki series parser

    A shallow embedding of [wikiparsercli.py] and the properties of its
    interactive resolution flow.

    The script is a thin driver around three outside parties: the parsing
    library ([WikipediaSeries]), the logging machinery and the operator at
    the terminal.  None of them is part of the script, so the embedding
    takes them as an environment [Env] of state transformers over an
    abstract outside state, and records every interaction in a trace.  The
    script itself ([setup_logging], [main]) is translated statement by
    statement into a state-and-exception monad over that environment. *)

From Stdlib Require Import String Ascii ZArith List Bool Lia DecimalString.
From Stdlib Require DecimalNat DecimalFacts.
Import ListNotations.

Local Open Scope string_scope.
Local Open Scope Z_scope.

(** ** Python values and built-ins the script relies on *)

Module Py.

(** An exception in flight, named by its class; [SystemExit] carries the
    exit code the interpreter terminates with. *)
Inductive exn : Type :=
| Exn (cls : string)
| SystemExit (code : Z).

Definition ValueError : exn := Exn "ValueError".
Definition IndexError : exn := Exn "IndexError".
Definition AttributeError : exn := Exn "AttributeError".
Definition EOFError : exn := Exn "EOFError".

(** Outcome of evaluating a statement or expression. *)
Inductive res (A : Type) : Type :=
| Ok (a : A)
| Raise (e : exn).
Arguments Ok {A} a.
Arguments Raise {A} e.

(** The double-quote character, for the f-string of [setup_logging]. *)
Definition dquote : string := String (ascii_of_nat 34) EmptyString.

(** [bool(s)] for a [str]: the empty string is the only falsy one. *)
Definition str_truthy (s : string) : bool :=
  match s with
  | EmptyString => false
  | String _ _ => true
  end.

(** ['{}'.format(n)] for a non-negative [int]: its decimal numeral. *)
Definition str_of_nat (n : nat) : string :=
  NilEmpty.string_of_uint (Nat.to_uint n).

(** [str.upper] on ASCII text. *)
Definition upper_ascii (c : ascii) : ascii :=
  let n := nat_of_ascii c in
  if (97 <=? n)%nat && (n <=? 122)%nat then ascii_of_nat (n - 32) else c.

Fixpoint upper (s : string) : string :=
  match s with
  | EmptyString => EmptyString
  | String c t => String (upper_ascii c) (upper t)
  end.

(** *** [int(text)]

    Base-ten conversion of ASCII text as the interpreter performs it:
    surrounding white space (tab, line feed, vertical tab, form feed,
    carriage return, blank) is dropped, one sign is allowed, and the rest
    must be decimal digits, where single underscores may separate digits.
    [None] stands for the [ValueError] the built-in raises.

    The function is the interpreter's [int] on the text [within_int_model]
    admits: ASCII only (the built-in also reads digits and spaces of other
    scripts), and of at most 640 characters (an interpreter that limits
    the number of digits never does so below 641).  Statements that depend
    on what [int] makes of a line carry that restriction as a hypothesis. *)

Definition is_space (c : ascii) : bool :=
  let n := nat_of_ascii c in
  ((9 <=? n)%nat && (n <=? 13)%nat) || (n =? 32)%nat.

Definition is_digit (c : ascii) : bool :=
  let n := nat_of_ascii c in
  (48 <=? n)%nat && (n <=? 57)%nat.

Definition digit_val (c : ascii) : Z := Z.of_nat (nat_of_ascii c - 48).

Fixpoint lstrip (s : list ascii) : list ascii :=
  match s with
  | c :: t => if is_space c then lstrip t else s
  | [] => []
  end.

Definition strip (s : list ascii) : list ascii :=
  rev (lstrip (rev (lstrip s))).

Fixpoint digits (s : list ascii) (acc : Z) (after_digit : bool) : option Z :=
  match s with
  | [] => if after_digit then Some acc else None
  | c :: t =>
      if is_digit c then digits t (10 * acc + digit_val c) true
      else if Ascii.eqb c "_" && after_digit then digits t acc false
      else None
  end.

Definition int (text : string) : option Z :=
  match strip (list_ascii_of_string text) with
  | c :: t =>
      if Ascii.eqb c "-" then option_map Z.opp (digits t 0 false)
      else if Ascii.eqb c "+" then digits t 0 false
      else digits (c :: t) 0 false
  | [] => None
  end.

Definition is_ascii_text (text : string) : bool :=
  forallb (fun c => (nat_of_ascii c <? 128)%nat) (list_ascii_of_string text).

Definition within_int_model (text : string) : bool :=
  is_ascii_text text && (String.length text <=? 640)%nat.

(** *** [seq[i]] on a list

    Positions [0 .. len-1] count from the front, [-len .. -1] from the
    back; anything else is the [IndexError] ([None] here). *)
Definition getitem {A : Type} (l : list A) (i : Z) : option A :=
  let n := Z.of_nat (length l) in
  if (0 <=? i) && (i <? n) then nth_error l (Z.to_nat i)
  else if (- n <=? i) && (i <? 0) then nth_error l (Z.to_nat (n + i))
  else None.

End Py.

Import Py.

(** ** Data model *)

(** Modelled from the spec: the result objects of [wikiparserlib], whose
    class is not part of this repository.  The script reads three
    attributes of a result, all text, and the object is immutable once the
    search returned it. *)
Record SearchResult : Type := mkResult {
  title : string;
  url : string;
  query_type : string
}.

(** What [check_for_match_in_result] hands back: a result object, or
    [None] when nothing in the list is the match. *)
Inductive value : Type :=
| VNone
| VResult (r : SearchResult).

(** [bool(v)]: [None] is falsy, a result object is truthy. *)
Definition truthy (v : value) : bool :=
  match v with
  | VNone => false
  | VResult _ => true
  end.

(** The [choices] of [--log-level]; also the severities of log records. *)
Inductive level : Type := debug | info | warning | error | critical.

Definition level_name (l : level) : string :=
  match l with
  | debug => "debug"
  | info => "info"
  | warning => "warning"
  | error => "error"
  | critical => "critical"
  end.

(** The namespace [argparse] returns from [get_arguments]. *)
Record Args : Type := mkArgs {
  logger_config : string;
  log_level : level;
  series_name : string
}.

(** ** The outside world *)

(** Calls that leave the script, with their arguments. *)
Inductive call (Soup Config : Type) : Type :=
| OpenRead (path : string)
| DictConfig (configuration : Config)
| ColoredlogsInstall (lvl : string)
| NewSeries
| SearchByName (name : string)
| CheckForMatch (results : list SearchResult)
| GetSoup (link : string)
| ParseTitleAndType (found_match : value)
| ParseSeasonsAndEpisodes (soup : Soup) (miniseries : bool)
| WriteToFileSystem.

(** What an observer of one run sees, in order. *)
Inductive event (Soup Config : Type) : Type :=
| Stdout (line : string)
| Log (lvl : level) (message : string)
| Input (prompt : string)
| Call (c : call Soup Config).

Arguments OpenRead {Soup Config} path.
Arguments DictConfig {Soup Config} configuration.
Arguments ColoredlogsInstall {Soup Config} lvl.
Arguments NewSeries {Soup Config}.
Arguments SearchByName {Soup Config} name.
Arguments CheckForMatch {Soup Config} results.
Arguments GetSoup {Soup Config} link.
Arguments ParseTitleAndType {Soup Config} found_match.
Arguments ParseSeasonsAndEpisodes {Soup Config} soup miniseries.
Arguments WriteToFileSystem {Soup Config}.
Arguments Stdout {Soup Config} line.
Arguments Log {Soup Config} lvl message.
Arguments Input {Soup Config} prompt.
Arguments Call {Soup Config} c.

(** The collaborators, as transformers of an outside state [S] (the wiki,
    the file system, the logging configuration, the series object).  Each
    may return or raise.  [json_loads] is a function of the text alone; it
    raises [JSONDecodeError] on text that is not JSON, and may raise
    otherwise too (so [RecursionError] on text nested too deeply). *)
Record Env (S Soup Config : Type) : Type := mkEnv {
  open_read : string -> S -> res string * S;
  json_loads : string -> res Config;
  dictConfig : Config -> S -> res unit * S;
  coloredlogs_install : string -> S -> res unit * S;
  WikipediaSeries : S -> res unit * S;
  search_by_name : string -> S -> res (list SearchResult) * S;
  check_for_match_in_result : list SearchResult -> S -> res value * S;
  get_soup_by_url : string -> S -> res Soup * S;
  parse_series_title_and_type : value -> S -> res unit * S;
  parse_seasons_and_episodes_from_soup : Soup -> bool -> S -> res unit * S;
  write_to_file_system : S -> res unit * S
}.

Arguments open_read {S Soup Config} _ _ _.
Arguments json_loads {S Soup Config} _ _.
Arguments dictConfig {S Soup Config} _ _ _.
Arguments coloredlogs_install {S Soup Config} _ _ _.
Arguments WikipediaSeries {S Soup Config} _ _.
Arguments search_by_name {S Soup Config} _ _ _.
Arguments check_for_match_in_result {S Soup Config} _ _ _.
Arguments get_soup_by_url {S Soup Config} _ _ _.
Arguments parse_series_title_and_type {S Soup Config} _ _ _.
Arguments parse_seasons_and_episodes_from_soup {S Soup Config} _ _ _ _.
Arguments write_to_file_system {S Soup Config} _ _.

(** One run's world: the parsed command line, the outside state, the lines
    the operator will type, and the trace so far. *)
Record world (S Soup Config : Type) : Type := mkWorld {
  cli : Args;
  ext : S;
  stdin : list string;
  trace : list (event Soup Config)
}.

Arguments mkWorld {S Soup Config} cli ext stdin trace.
Arguments cli {S Soup Config} w.
Arguments ext {S Soup Config} w.
Arguments stdin {S Soup Config} w.
Arguments trace {S Soup Config} w.

(** ** The script monad *)

Section Monad.
Context {S Soup Config : Type}.

Definition M (A : Type) : Type :=
  world S Soup Config -> res A * world S Soup Config.

Definition ret {A} (a : A) : M A := fun w => (Ok a, w).

Definition bind {A B} (c : M A) (k : A -> M B) : M B :=
  fun w =>
    match c w with
    | (Ok a, w') => k a w'
    | (Raise e, w') => (Raise e, w')
    end.

Definition throw {A} (e : exn) : M A := fun w => (Raise e, w).

(** [try: body except <class>: handler], [handles] deciding which
    exceptions the clause catches. *)
Definition try_except {A} (body : M A) (handles : exn -> bool) (handler : M A) : M A :=
  fun w =>
    match body w with
    | (Ok a, w') => (Ok a, w')
    | (Raise e, w') => if handles e then handler w' else (Raise e, w')
    end.

Definition emit (ev : event Soup Config) : M unit :=
  fun w => (Ok tt, mkWorld (cli w) (ext w) (stdin w) (trace w ++ [ev])).

(** A call to a collaborator: traced, then run on the outside state. *)
Definition outside {A} (c : call Soup Config) (f : S -> res A * S) : M A :=
  fun w =>
    let (r, s') := f (ext w) in
    (r, mkWorld (cli w) s' (stdin w) (trace w ++ [Call c])).

(** [input(prompt)]: shows the prompt and takes the next line typed;
    end of input is [EOFError]. *)
Definition input (prompt : string) : M string :=
  fun w =>
    match stdin w with
    | line :: rest =>
        (Ok line, mkWorld (cli w) (ext w) rest (trace w ++ [Input prompt]))
    | [] =>
        (Raise EOFError, mkWorld (cli w) (ext w) [] (trace w ++ [Input prompt]))
    end.

(** A call that touches nothing outside: it returns or raises. *)
Definition inside {A} (r : res A) : M A := fun w => (r, w).

(** Lifting the partial built-ins: [None] becomes the given exception. *)
Definition or_raise {A} (o : option A) (e : exn) : M A :=
  match o with
  | Some a => ret a
  | None => throw e
  end.

End Monad.

Arguments M S Soup Config A : clear implicits.

Declare Scope script_scope.
Delimit Scope script_scope with script.
Notation "x <- c ;; k" := (bind c (fun x => k))
  (at level 100, c at next level, right associativity) : script_scope.
Notation "c ;; k" := (bind c (fun _ => k))
  (at level 100, right associativity) : script_scope.
Local Open Scope script_scope.

(** ** The script *)

(** Class names the [except ValueError] clause catches: [ValueError] and
    the classes derived from it that reading, decoding and parsing a text
    file raise. *)
Definition isinstance_ValueError (e : exn) : bool :=
  match e with
  | Exn cls =>
      existsb (String.eqb cls)
        ["ValueError"; "JSONDecodeError"; "UnicodeError";
         "UnicodeDecodeError"; "UnicodeEncodeError"; "UnicodeTranslateError"]
  | SystemExit _ => false
  end.

(** The f-string of line 118. *)
Definition not_json_message (config_file : string) : string :=
  "File " ++ dquote ++ config_file ++ dquote ++ " is not valid json, cannot continue.".

(** [for idx, x in enumerate(l): body], counting from [idx]. *)
Fixpoint for_enumerate {S Soup Config A : Type} (idx : nat) (l : list A)
    (body : nat -> A -> M S Soup Config unit) : M S Soup Config unit :=
  match l with
  | [] => ret tt
  | x :: rest => body idx x ;; for_enumerate (Datatypes.S idx) rest body
  end.

Section Script.
Context {S Soup Config : Type} (env : Env S Soup Config).

(** [get_arguments]: the namespace [argparse] built from the command line. *)
Definition get_arguments : M S Soup Config Args :=
  fun w => (Ok (cli w), w).

(** [LOGGER.info] and [LOGGER.debug]: one log record each. *)
Definition LOGGER (lvl : level) (message : string) : M S Soup Config unit :=
  emit (Log lvl message).

(** Attribute reads on what may be [None]. *)
Definition attr (field : SearchResult -> string) (v : value) : M S Soup Config string :=
  match v with
  | VResult r => ret (field r)
  | VNone => throw AttributeError
  end.

(** [setup_logging(level, config_file)], lines 95-121. *)
Definition setup_logging (lvl : level) (config_file : string) : M S Soup Config unit :=
  if str_truthy config_file then
    try_except
      (text <- outside (OpenRead config_file) (open_read env config_file) ;;
       configuration <- inside (json_loads env text) ;;
       outside (DictConfig configuration) (dictConfig env configuration))
      isinstance_ValueError
      (emit (Stdout (not_json_message config_file)) ;;
       throw (SystemExit 1))
  else
    outside (ColoredlogsInstall (upper (level_name lvl)))
            (coloredlogs_install env (upper (level_name lvl))).

(** Lines 139-144 of [main], the body of [if not found_match:]: list the
    candidates, ask the operator, check the chosen one again. *)
Definition disambiguate (results : list SearchResult) (found_match : value)
    : M S Soup Config value :=
  for_enumerate 0 results
    (fun idx search_result =>
       LOGGER info (str_of_nat idx ++ ":" ++ title search_result)) ;;
  line <- input "Found multiple results, please choose the correct one:" ;;
  user_choice <- or_raise (int line) ValueError ;;
  chosen <- or_raise (getitem results user_choice) IndexError ;;
  if truthy (VResult chosen) then
    shown <- or_raise (getitem results user_choice) IndexError ;;
    LOGGER debug ("You chose: " ++ title shown) ;;
    picked <- or_raise (getitem results user_choice) IndexError ;;
    outside (CheckForMatch [picked]) (check_for_match_in_result env [picked])
  else ret found_match.

(** Lines 135-144 of [main]: from the series name to [found_match]. *)
Definition resolve (name : string) : M S Soup Config value :=
  outside NewSeries (WikipediaSeries env) ;;
  results <- outside (SearchByName name) (search_by_name env name) ;;
  found_match <- outside (CheckForMatch results) (check_for_match_in_result env results) ;;
  if negb (truthy found_match) then disambiguate results found_match
  else ret found_match.

(** Lines 145-149 of [main]: fetch, parse and persist [found_match]. *)
Definition parse_and_persist (found_match : value) : M S Soup Config unit :=
  link <- attr url found_match ;;
  soup <- outside (GetSoup link) (get_soup_by_url env link) ;;
  outside (ParseTitleAndType found_match) (parse_series_title_and_type env found_match) ;;
  kind <- attr query_type found_match ;;
  let is_miniseris := if String.eqb kind "miniseries" then true else false in
  outside (ParseSeasonsAndEpisodes soup is_miniseris)
          (parse_seasons_and_episodes_from_soup env soup is_miniseris) ;;
  outside WriteToFileSystem (write_to_file_system env).

(** [main], lines 124-149. *)
Definition main : M S Soup Config unit :=
  args <- get_arguments ;;
  setup_logging (log_level args) (logger_config args) ;;
  if str_truthy (series_name args) then
    LOGGER info ("seacrching for " ++ series_name args) ;;
    found_match <- resolve (series_name args) ;;
    parse_and_persist found_match
  else ret tt.

End Script.

(** A computation only ever adds to the trace. *)
Definition grows {S Soup Config A : Type} (c : M S Soup Config A) : Prop :=
  forall w, exists tail, trace (snd (c w)) = (trace w ++ tail)%list.

(** The status the interpreter exits with: 0 after a normal return, the
    code of a [SystemExit], 1 after any other uncaught exception. *)
Definition exit_code (r : res unit) : Z :=
  match r with
  | Ok _ => 0
  | Raise (SystemExit code) => code
  | Raise (Exn _) => 1
  end.

(** ** Reading traces *)

(** The text the operator is asked with. *)
Definition selection_prompt : string :=
  "Found multiple results, please choose the correct one:".

(** The candidate listing in the spec's words: one line per candidate,
    [<index>:<title>], indices from 0, in the order of the result set. *)
Definition candidate_lines (results : list SearchResult) : list string :=
  map (fun entry => str_of_nat (fst entry) ++ ":" ++ title (snd entry))
      (combine (seq 0 (length results)) results).

(** The same listing as the loop of [resolve] builds it, from index [idx]. *)
Fixpoint lines_from (idx : nat) (results : list SearchResult) : list string :=
  match results with
  | [] => []
  | r :: rest => (str_of_nat idx ++ ":" ++ title r) :: lines_from (Datatypes.S idx) rest
  end.

Section Traces.
Context {Soup Config : Type}.

(** The calls every resolution opens with. *)
Definition opening (name : string) (results : list SearchResult)
    : list (event Soup Config) :=
  [Call NewSeries; Call (SearchByName name); Call (CheckForMatch results)].

(** The listing as log records. *)
Definition listing (results : list SearchResult) : list (event Soup Config) :=
  map (Log info) (candidate_lines results).

(** What manual disambiguation adds to the trace once candidate [r] is
    taken: the listing, the question, the echo and the second check. *)
Definition chosen_trace (results : list SearchResult) (r : SearchResult)
    : list (event Soup Config) :=
  listing results ++
  [Input selection_prompt; Log debug ("You chose: " ++ title r);
   Call (CheckForMatch [r])].

(** What it adds when the run stops at the question. *)
Definition asked_trace (results : list SearchResult) : list (event Soup Config) :=
  listing results ++ [Input selection_prompt].

Definition is_prompt (ev : event Soup Config) : bool :=
  match ev with
  | Input _ => true
  | _ => false
  end.

(** How often the operator was asked. *)
Definition prompts (t : list (event Soup Config)) : nat :=
  length (filter is_prompt t).

(** The [info] records of a trace, in order. *)
Fixpoint info_lines (t : list (event Soup Config)) : list string :=
  match t with
  | Log info message :: rest => message :: info_lines rest
  | _ :: rest => info_lines rest
  | [] => []
  end.


(** The names the search was issued with. *)
Fixpoint searches (t : list (event Soup Config)) : list string :=
  match t with
  | Call (SearchByName name) :: rest => name :: searches rest
  | _ :: rest => searches rest
  | [] => []
  end.



(** Calls into the parse/persist pipeline (fetch, parse, persist). *)
Definition is_pipeline_call (ev : event Soup Config) : bool :=
  match ev with
  | Call (GetSoup _) | Call (ParseTitleAndType _)
  | Call (ParseSeasonsAndEpisodes _ _) | Call WriteToFileSystem => true
  | _ => false
  end.

Definition pipeline_calls (t : list (event Soup Config)) : list (event Soup Config) :=
  filter is_pipeline_call t.

End Traces.

(** ** Counting what a computation adds

    A reading [rd] takes from a trace the events of one kind, in order.
    The predicates below say how the reading of the trace changes over a
    computation, whatever the outside world answers. *)

Section Counting.
Context {S Soup Config : Type}.

Definition is_search (ev : event Soup Config) : bool :=
  match ev with
  | Call (SearchByName _) => true
  | _ => false
  end.

Definition is_write (ev : event Soup Config) : bool :=
  match ev with
  | Call WriteToFileSystem => true
  | _ => false
  end.

Definition is_install (ev : event Soup Config) : bool :=
  match ev with
  | Call (ColoredlogsInstall _) => true
  | _ => false
  end.

(** The computation adds nothing the reading sees. *)
Definition keeps {A X : Type} (rd : list (event Soup Config) -> list X)
    (c : M S Soup Config A) : Prop :=
  forall w, rd (trace (snd (c w))) = rd (trace w).

(** The computation adds nothing the reading sees, or the one item [x]. *)
Definition at_most_one {A X : Type} (rd : list (event Soup Config) -> list X)
    (x : X) (c : M S Soup Config A) : Prop :=
  forall w,
    rd (trace (snd (c w))) = rd (trace w) \/
    rd (trace (snd (c w))) = (rd (trace w) ++ [x])%list.

(** The computation takes nothing from the operator's input. *)
Definition leaves_stdin {A : Type} (c : M S Soup Config A) : Prop :=
  forall w, stdin (snd (c w)) = stdin w.

(** The computation asks nothing and reads nothing, or asks the selection
    question once and takes one line. *)
Definition asks_once {A : Type} (c : M S Soup Config A) : Prop :=
  forall w,
    (stdin (snd (c w)) = stdin w /\
     filter is_prompt (trace (snd (c w))) = filter is_prompt (trace w)) \/
    (stdin (snd (c w)) = tl (stdin w) /\
     filter is_prompt (trace (snd (c w))) =
     (filter is_prompt (trace w) ++ [Input selection_prompt])%list).

End Counting.

(** ** A second concrete world, where things go wrong

    The configuration file [missing.json] cannot be opened, [deep.json]
    holds a thousand opening brackets, on which the parser runs out of
    recursion depth, [schema.json] holds JSON that the logging machinery
    rejects, and the wiki is out of reach. *)
Module Faulty.

Fixpoint brackets (n : nat) : string :=
  match n with
  | O => EmptyString
  | Datatypes.S k => String "[" (brackets k)
  end.

Fixpoint leading_brackets (text : string) : nat :=
  match text with
  | String c rest => if Ascii.eqb c "[" then Datatypes.S (leading_brackets rest) else O
  | EmptyString => O
  end.

Definition env : Env nat string bool := {|
  open_read := fun path n =>
    if String.eqb path "missing.json"
    then (Raise (Exn "FileNotFoundError"), Datatypes.S n)
    else if String.eqb path "deep.json"
    then (Ok (brackets 1000), Datatypes.S n)
    else (Ok "{}", Datatypes.S n);
  json_loads := fun text =>
    if String.eqb text "{}" then Ok true
    else if (1000 <=? leading_brackets text)%nat then Raise (Exn "RecursionError")
    else Raise (Exn "JSONDecodeError");
  dictConfig := fun _ n => (Raise ValueError, Datatypes.S n);
  coloredlogs_install := fun _ n => (Ok tt, Datatypes.S n);
  WikipediaSeries := fun n => (Ok tt, Datatypes.S n);
  search_by_name := fun _ n => (Raise (Exn "ConnectionError"), Datatypes.S n);
  check_for_match_in_result := fun _ n => (Ok VNone, Datatypes.S n);
  get_soup_by_url := fun _ n => (Raise (Exn "ConnectionError"), Datatypes.S n);
  parse_series_title_and_type := fun _ n => (Ok tt, Datatypes.S n);
  parse_seasons_and_episodes_from_soup := fun _ _ n => (Ok tt, Datatypes.S n);
  write_to_file_system := fun n => (Ok tt, Datatypes.S n)
|}.

End Faulty.

(** ** A small concrete outside world

    A wiki with the two queries of the spec's scenarios.  Its match check
    accepts a list exactly when it holds one article about a series or a
    miniseries.  The outside state counts the calls made. *)
Module Demo.

Definition dark : SearchResult :=
  mkResult "Dark" "https://en.wikipedia.org/wiki/Dark" "disambiguation".
Definition dark_series : SearchResult :=
  mkResult "Dark (2017 TV series)" "https://en.wikipedia.org/wiki/Dark_(TV_series)" "series".
Definition dark_film : SearchResult :=
  mkResult "Dark (film)" "https://en.wikipedia.org/wiki/Dark_(film)" "film".
Definition chernobyl : SearchResult :=
  mkResult "Chernobyl" "https://en.wikipedia.org/wiki/Chernobyl_(miniseries)" "miniseries".

Definition search (name : string) : list SearchResult :=
  if String.eqb name "Dark" then [dark; dark_series; dark_film]
  else if String.eqb name "Chernobyl" then [chernobyl]
  else [].

Definition check (results : list SearchResult) : value :=
  match results with
  | [r] =>
      if String.eqb (query_type r) "series" || String.eqb (query_type r) "miniseries"
      then VResult r else VNone
  | _ => VNone
  end.

Definition tick {A : Type} (a : A) (n : nat) : res A * nat := (Ok a, Datatypes.S n).

Definition env : Env nat string bool := {|
  open_read := fun path => tick (if String.eqb path "good.json" then "{}" else "{");
  json_loads := fun text =>
    if String.eqb text "{}" then Ok true else Raise (Exn "JSONDecodeError");
  dictConfig := fun _ => tick tt;
  coloredlogs_install := fun _ => tick tt;
  WikipediaSeries := tick tt;
  search_by_name := fun name => tick (search name);
  check_for_match_in_result := fun results => tick (check results);
  get_soup_by_url := fun link => tick ("<html>" ++ link ++ "</html>");
  parse_series_title_and_type := fun _ => tick tt;
  parse_seasons_and_episodes_from_soup := fun _ _ => tick tt;
  write_to_file_system := tick tt
|}.

(** A run started as [wikiparsercli -n <name> -l <config>], the operator
    typing [typed]. *)
Definition start (config name : string) (typed : list string) : world nat string bool :=
  mkWorld (mkArgs config info name) 0%nat typed [].

End Demo.

(** ** Properties *)

(** *** Built-ins *)

Example int_plain : int "12" = Some 12.
Proof. reflexivity. Qed.

Example int_signed_and_padded : int " -7 " = Some (-7).
Proof. reflexivity. Qed.

Example int_underscore : int "1_000" = Some 1000.
Proof. reflexivity. Qed.

Example int_rejects_words : int "abc" = None.
Proof. reflexivity. Qed.

Example int_rejects_empty : int "" = None.
Proof. reflexivity. Qed.

Example int_rejects_inner_space : int "1 2" = None.
Proof. reflexivity. Qed.

Example int_skips_carriage_return : int (String (ascii_of_nat 13) "5") = Some 5.
Proof. reflexivity. Qed.

Example int_rejects_file_separator : int (String (ascii_of_nat 28) "1") = None.
Proof. reflexivity. Qed.

Example int_rejects_unit_separator : int (String (ascii_of_nat 31) "1") = None.
Proof. reflexivity. Qed.

Example int_rejects_sign_alone : int "-" = None.
Proof. reflexivity. Qed.

Example within_int_model_digits : within_int_model "-12" = true.
Proof. reflexivity. Qed.

Example within_int_model_refuses_high_bytes :
  within_int_model (String (ascii_of_nat 239) "1") = false.
Proof. reflexivity. Qed.

Example dquote_is_code_34 : list_ascii_of_string dquote = ["034"%char].
Proof. reflexivity. Qed.

Example not_json_message_text :
  not_json_message "log.json" =
  "File " ++ String "034" "log.json" ++ String "034" " is not valid json, cannot continue.".
Proof. reflexivity. Qed.

Example getitem_last : getitem [10; 20; 30] (-1) = Some 30.
Proof. reflexivity. Qed.

Example getitem_past_the_end : getitem [10; 20; 30] 3 = None.
Proof. reflexivity. Qed.

Example getitem_before_the_start : getitem [10; 20; 30] (-4) = None.
Proof. reflexivity. Qed.

Example upper_info : upper (level_name info) = "INFO".
Proof. reflexivity. Qed.

Lemma getitem_front {A : Type} (l : list A) (i : Z) :
  0 <= i < Z.of_nat (length l) -> getitem l i = nth_error l (Z.to_nat i).
Proof.
  intros [Hlo Hhi]. unfold getitem.
  apply Z.leb_le in Hlo. apply Z.ltb_lt in Hhi.
  now rewrite Hlo, Hhi.
Qed.

Lemma getitem_back {A : Type} (l : list A) (i : Z) :
  - Z.of_nat (length l) <= i < 0 ->
  getitem l i = nth_error l (Z.to_nat (Z.of_nat (length l) + i)).
Proof.
  intros [Hlo Hhi]. unfold getitem.
  assert (H0 : (0 <=? i) = false) by (apply Z.leb_gt; lia).
  apply Z.leb_le in Hlo. apply Z.ltb_lt in Hhi.
  now rewrite H0, Hlo, Hhi.
Qed.

Lemma getitem_outside {A : Type} (l : list A) (i : Z) :
  i < - Z.of_nat (length l) \/ Z.of_nat (length l) <= i -> getitem l i = None.
Proof.
  intros Hout. unfold getitem.
  destruct (Z.leb_spec 0 i), (Z.ltb_spec i (Z.of_nat (length l)));
    destruct (Z.leb_spec (- Z.of_nat (length l)) i), (Z.ltb_spec i 0);
    simpl; try reflexivity; lia.
Qed.

Lemma getitem_some_iff {A : Type} (l : list A) (i : Z) :
  (exists a, getitem l i = Some a) <->
  - Z.of_nat (length l) <= i < Z.of_nat (length l).
Proof.
  split.
  - intros [a Ha].
    destruct (Z_lt_ge_dec i (- Z.of_nat (length l))) as [Hlt | Hge].
    + rewrite getitem_outside in Ha by lia. discriminate.
    + destruct (Z_lt_ge_dec i (Z.of_nat (length l))) as [Hlt' | Hge'].
      * lia.
      * rewrite getitem_outside in Ha by lia. discriminate.
  - intros Hin.
    destruct (Z_lt_ge_dec i 0) as [Hneg | Hpos].
    + rewrite getitem_back by lia.
      destruct (nth_error l (Z.to_nat (Z.of_nat (length l) + i))) eqn:E.
      * now exists a.
      * apply nth_error_None in E. lia.
    + rewrite getitem_front by lia.
      destruct (nth_error l (Z.to_nat i)) eqn:E.
      * now exists a.
      * apply nth_error_None in E. lia.
Qed.

(** *** The candidate listing *)

Lemma lines_from_combine (results : list SearchResult) : forall idx,
  lines_from idx results =
  map (fun entry => str_of_nat (fst entry) ++ ":" ++ title (snd entry))
      (combine (seq idx (length results)) results).
Proof.
  induction results as [| r rest IH]; intros idx; simpl.
  - reflexivity.
  - now rewrite IH.
Qed.

Lemma lines_from_zero (results : list SearchResult) :
  lines_from 0 results = candidate_lines results.
Proof. apply lines_from_combine. Qed.

Lemma candidate_lines_length (results : list SearchResult) :
  length (candidate_lines results) = length results.
Proof.
  unfold candidate_lines.
  rewrite length_map, length_combine, length_seq. apply Nat.min_id.
Qed.

Lemma lines_from_nth (results : list SearchResult) : forall idx i r,
  nth_error results i = Some r ->
  nth_error (lines_from idx results) i = Some (str_of_nat (idx + i) ++ ":" ++ title r).
Proof.
  induction results as [| r0 rest IH]; intros idx [| i] r H; simpl in *; try discriminate.
  - injection H as ->. now rewrite Nat.add_0_r.
  - rewrite <- Nat.add_succ_comm. now apply IH.
Qed.

Lemma candidate_lines_nth (results : list SearchResult) (i : nat) (r : SearchResult) :
  nth_error results i = Some r ->
  nth_error (candidate_lines results) i = Some (str_of_nat i ++ ":" ++ title r).
Proof.
  intros H. rewrite <- lines_from_zero. now apply (lines_from_nth results 0%nat).
Qed.

Section Facts.
Context {S Soup Config : Type} (env : Env S Soup Config).

Lemma info_lines_app (t u : list (event Soup Config)) :
  info_lines (t ++ u) = (info_lines t ++ info_lines u)%list.
Proof.
  induction t as [| ev t IH]; [reflexivity |].
  destruct ev as [line | [] message | prompt | c]; simpl; now rewrite ?IH.
Qed.



Lemma prompts_app (t u : list (event Soup Config)) :
  prompts (t ++ u) = (prompts t + prompts u)%nat.
Proof. unfold prompts. now rewrite filter_app, length_app. Qed.


Lemma searches_app (t u : list (event Soup Config)) :
  searches (t ++ u) = (searches t ++ searches u)%list.
Proof.
  induction t as [| ev t IH]; [reflexivity |].
  destruct ev as [line | lvl message | prompt | []]; simpl; now rewrite ?IH.
Qed.

Lemma pipeline_calls_app (t u : list (event Soup Config)) :
  pipeline_calls (t ++ u) = (pipeline_calls t ++ pipeline_calls u)%list.
Proof. apply filter_app. Qed.

Lemma pipeline_calls_logs (lines : list string) :
  pipeline_calls (map (@Log Soup Config info) lines) = [].
Proof. induction lines as [| l rest IH]; simpl; assumption || reflexivity. Qed.

(** The loop of [resolve] logs the listing and nothing else. *)
Lemma listing_run (results : list SearchResult) : forall idx (w : world S Soup Config),
  for_enumerate idx results
    (fun i search_result => LOGGER info (str_of_nat i ++ ":" ++ title search_result)) w =
  (Ok tt, mkWorld (cli w) (ext w) (stdin w)
            (trace w ++ map (Log info) (lines_from idx results))).
Proof.
  induction results as [| r rest IH]; intros idx w; simpl.
  - unfold ret. rewrite app_nil_r. now destruct w.
  - unfold bind, LOGGER, emit. rewrite IH. simpl.
    now rewrite <- app_assoc.
Qed.

End Facts.

Section Resolution.
Context {S Soup Config : Type} (env : Env S Soup Config).

(** **** Running the monad one step *)

Lemma bind_ok {A B} (c : M S Soup Config A) (k : A -> M S Soup Config B) w a w' :
  c w = (Ok a, w') -> bind c k w = k a w'.
Proof. intros H. unfold bind. now rewrite H. Qed.

Lemma bind_raise {A B} (c : M S Soup Config A) (k : A -> M S Soup Config B) w e w' :
  c w = (Raise e, w') -> bind c k w = (Raise e, w').
Proof. intros H. unfold bind. now rewrite H. Qed.

Lemma outside_run {A} (c : call Soup Config) (f : S -> res A * S)
    (w : world S Soup Config) out s' :
  f (ext w) = (out, s') ->
  outside c f w = (out, mkWorld (cli w) s' (stdin w) (trace w ++ [Call c])).
Proof. intros H. unfold outside. now rewrite H. Qed.

(** **** Manual disambiguation, case by case *)

Lemma disambiguate_eof results found (w : world S Soup Config) :
  stdin w = [] ->
  disambiguate env results found w =
  (Raise EOFError,
   mkWorld (cli w) (ext w) [] (trace w ++ asked_trace results)).
Proof.
  intros Hin. unfold disambiguate, bind at 1. rewrite listing_run.
  unfold bind, input. simpl. rewrite Hin.
  unfold asked_trace, listing. now rewrite lines_from_zero, <- app_assoc.
Qed.

Lemma disambiguate_not_int results found (w : world S Soup Config) line rest :
  stdin w = line :: rest ->
  int line = None ->
  disambiguate env results found w =
  (Raise ValueError,
   mkWorld (cli w) (ext w) rest (trace w ++ asked_trace results)).
Proof.
  intros Hin Hint. unfold disambiguate, bind at 1. rewrite listing_run.
  unfold bind, input. simpl. rewrite Hin, Hint. simpl.
  unfold asked_trace, listing. now rewrite lines_from_zero, <- app_assoc.
Qed.

Lemma disambiguate_out_of_range results found (w : world S Soup Config) line rest c :
  stdin w = line :: rest ->
  int line = Some c ->
  getitem results c = None ->
  disambiguate env results found w =
  (Raise IndexError,
   mkWorld (cli w) (ext w) rest (trace w ++ asked_trace results)).
Proof.
  intros Hin Hint Hget. unfold disambiguate, bind at 1. rewrite listing_run.
  unfold bind, input. simpl. rewrite Hin, Hint. simpl. rewrite Hget. simpl.
  unfold asked_trace, listing. now rewrite lines_from_zero, <- app_assoc.
Qed.

Lemma disambiguate_chosen results found (w : world S Soup Config) line rest c r out s' :
  stdin w = line :: rest ->
  int line = Some c ->
  getitem results c = Some r ->
  check_for_match_in_result env [r] (ext w) = (out, s') ->
  disambiguate env results found w =
  (out, mkWorld (cli w) s' rest (trace w ++ chosen_trace results r)).
Proof.
  intros Hin Hint Hget Hcheck. unfold disambiguate, bind at 1. rewrite listing_run.
  unfold bind, input. simpl. rewrite Hin, Hint. simpl. rewrite Hget. simpl.
  unfold outside. simpl. rewrite Hcheck.
  unfold chosen_trace, listing. rewrite lines_from_zero.
  now rewrite <- !app_assoc.
Qed.

(** **** From the name to the first check *)

Lemma resolve_checked name (w : world S Soup Config) s1 results s2 found s3 :
  WikipediaSeries env (ext w) = (Ok tt, s1) ->
  search_by_name env name s1 = (Ok results, s2) ->
  check_for_match_in_result env results s2 = (Ok found, s3) ->
  resolve env name w =
  (if negb (truthy found) then disambiguate env results found else ret found)
    (mkWorld (cli w) s3 (stdin w) (trace w ++ opening name results)).
Proof.
  intros Hnew Hsearch Hcheck. unfold resolve, bind, outside. simpl.
  rewrite Hnew. simpl. rewrite Hsearch. simpl. rewrite Hcheck.
  unfold opening. now rewrite <- !app_assoc.
Qed.

Lemma resolve_unmatched name (w : world S Soup Config) s1 results s2 s3 :
  WikipediaSeries env (ext w) = (Ok tt, s1) ->
  search_by_name env name s1 = (Ok results, s2) ->
  check_for_match_in_result env results s2 = (Ok VNone, s3) ->
  resolve env name w =
  disambiguate env results VNone
    (mkWorld (cli w) s3 (stdin w) (trace w ++ opening name results)).
Proof.
  intros Hnew Hsearch Hcheck.
  now rewrite (resolve_checked name w s1 results s2 VNone s3 Hnew Hsearch Hcheck).
Qed.

End Resolution.

Section Driver.
Context {S Soup Config : Type} (env : Env S Soup Config).

Lemma str_truthy_nonempty (s : string) : s <> "" -> str_truthy s = true.
Proof. destruct s; [congruence | reflexivity]. Qed.

(** **** [main] around the resolution *)

Lemma main_setup_raises (w w1 : world S Soup Config) e :
  setup_logging env (log_level (cli w)) (logger_config (cli w)) w = (Raise e, w1) ->
  main env w = (Raise e, w1).
Proof.
  intros Hsetup. unfold main, bind, get_arguments. now rewrite Hsetup.
Qed.

Lemma main_unnamed (w w1 : world S Soup Config) :
  setup_logging env (log_level (cli w)) (logger_config (cli w)) w = (Ok tt, w1) ->
  series_name (cli w) = "" ->
  main env w = (Ok tt, w1).
Proof.
  intros Hsetup Hname. unfold main, bind, get_arguments.
  now rewrite Hsetup, Hname.
Qed.

Lemma main_named (w w1 : world S Soup Config) :
  setup_logging env (log_level (cli w)) (logger_config (cli w)) w = (Ok tt, w1) ->
  series_name (cli w) <> "" ->
  main env w =
  (found_match <- resolve env (series_name (cli w)) ;;
   parse_and_persist env found_match)
    (mkWorld (cli w1) (ext w1) (stdin w1)
       (trace w1 ++ [Log info ("seacrching for " ++ series_name (cli w))])).
Proof.
  intros Hsetup Hname. unfold main, get_arguments.
  unfold bind at 1. unfold bind at 1. rewrite Hsetup.
  now rewrite (str_truthy_nonempty _ Hname).
Qed.

(** **** The trace only grows *)

Create HintDb grows.

Lemma grows_ret {A} (a : A) : grows (@ret S Soup Config A a).
Proof. intros w. exists []. simpl. now rewrite app_nil_r. Qed.

Lemma grows_throw {A} e : grows (@throw S Soup Config A e).
Proof. intros w. exists []. simpl. now rewrite app_nil_r. Qed.

Lemma grows_emit ev : grows (@emit S Soup Config ev).
Proof. intros w. now exists [ev]. Qed.

Lemma grows_outside {A} (c : call Soup Config) (f : S -> res A * S) : grows (outside c f).
Proof. intros w. exists [Call c]. unfold outside. now destruct (f (ext w)). Qed.

Lemma grows_input prompt : grows (@input S Soup Config prompt).
Proof. intros w. exists [Input prompt]. unfold input. now destruct (stdin w). Qed.

Lemma grows_or_raise {A} (o : option A) e : grows (@or_raise S Soup Config A o e).
Proof. destruct o; [apply grows_ret | apply grows_throw]. Qed.

Lemma grows_bind {A B} (c : M S Soup Config A) (k : A -> M S Soup Config B) :
  grows c -> (forall a, grows (k a)) -> grows (bind c k).
Proof.
  intros Hc Hk w. unfold bind. destruct (Hc w) as [t1 H1].
  destruct (c w) as [[a | e] w']; simpl in *.
  - destruct (Hk a w') as [t2 H2]. exists (t1 ++ t2)%list.
    now rewrite H2, H1, app_assoc.
  - now exists t1.
Qed.

Lemma grows_listing idx results :
  grows (for_enumerate idx results
           (fun i search_result =>
              @LOGGER S Soup Config info (str_of_nat i ++ ":" ++ title search_result))).
Proof. intros w. rewrite listing_run. now eexists. Qed.

#[local] Hint Resolve grows_ret grows_throw grows_emit grows_outside grows_input
  grows_or_raise grows_listing : grows.

Ltac grows_steps :=
  repeat (cbn [truthy]; cbv iota; apply grows_bind; [| intro]); auto with grows.

Lemma grows_attr field found : grows (@attr S Soup Config field found).
Proof. destruct found; simpl; auto with grows. Qed.

#[local] Hint Resolve grows_attr : grows.

Lemma grows_disambiguate results found : grows (disambiguate env results found).
Proof. unfold disambiguate, LOGGER. grows_steps. Qed.

Lemma grows_parse_and_persist found : grows (parse_and_persist env found).
Proof. unfold parse_and_persist. grows_steps. Qed.

End Driver.

Section Claims.
Context {S Soup Config : Type} (env : Env S Soup Config).

(** **** Trace readings of the pieces [resolve] adds *)

Lemma prompts_opening name results :
  prompts (@opening Soup Config name results) = 0%nat.
Proof. reflexivity. Qed.

Lemma info_lines_opening name results :
  info_lines (@opening Soup Config name results) = [].
Proof. reflexivity. Qed.

Lemma pipeline_calls_opening name results :
  pipeline_calls (@opening Soup Config name results) = [].
Proof. reflexivity. Qed.



Lemma pipeline_calls_chosen_trace results r :
  pipeline_calls (@chosen_trace Soup Config results r) = [].
Proof.
  unfold chosen_trace, listing. rewrite pipeline_calls_app, pipeline_calls_logs.
  reflexivity.
Qed.

(** [main] hands on whatever [resolve] raises: it has no handler. *)
Lemma main_resolve_raises (w w1 w' : world S Soup Config) e :
  setup_logging env (log_level (cli w)) (logger_config (cli w)) w = (Ok tt, w1) ->
  series_name (cli w) <> "" ->
  resolve env (series_name (cli w))
    (mkWorld (cli w1) (ext w1) (stdin w1)
       (trace w1 ++ [Log info ("seacrching for " ++ series_name (cli w))])) =
  (Raise e, w') ->
  main env w = (Raise e, w').
Proof.
  intros Hsetup Hname Hres. rewrite (main_named env w w1 Hsetup Hname).
  unfold bind. now rewrite Hres.
Qed.

(** C3. Whenever the match check on the search results yields a match,
    [resolve] returns that match after the three opening calls alone: the
    operator's input is left untouched, no question is asked and no
    candidate line is logged. *)
Theorem authoritative_match_needs_no_operator
    name (w : world S Soup Config) s1 results s2 m s3 :
  WikipediaSeries env (ext w) = (Ok tt, s1) ->
  search_by_name env name s1 = (Ok results, s2) ->
  check_for_match_in_result env results s2 = (Ok (VResult m), s3) ->
  exists w',
    resolve env name w = (Ok (VResult m), w') /\
    stdin w' = stdin w /\
    trace w' = (trace w ++ opening name results)%list /\
    prompts (trace w') = prompts (trace w) /\
    info_lines (trace w') = info_lines (trace w).
Proof.
  intros Hnew Hsearch Hcheck.
  rewrite (resolve_checked env name w s1 results s2 (VResult m) s3 Hnew Hsearch Hcheck).
  simpl. eexists. split; [reflexivity |]. simpl.
  repeat split.
  - rewrite prompts_app, prompts_opening. apply Nat.add_0_r.
  - rewrite info_lines_app, info_lines_opening. apply app_nil_r.
Qed.

(** **** What reaches the console *)






(** C10. A selection [c] with [-N <= c <= -1], typed as text within the
    model of [int], raises nothing at the indexing: it picks the candidate
    at position [N + c], which is echoed and checked like any other choice,
    and the outcome of [resolve] is the outcome of that check. *)
Theorem negative_selection_counts_from_the_end
    name (w : world S Soup Config) s1 results s2 s3 line rest c :
  WikipediaSeries env (ext w) = (Ok tt, s1) ->
  search_by_name env name s1 = (Ok results, s2) ->
  check_for_match_in_result env results s2 = (Ok VNone, s3) ->
  stdin w = line :: rest ->
  within_int_model line = true ->
  int line = Some c ->
  - Z.of_nat (length results) <= c <= -1 ->
  exists r,
    nth_error results (Z.to_nat (Z.of_nat (length results) + c)) = Some r /\
    getitem results c = Some r /\
    resolve env name w =
    (fst (check_for_match_in_result env [r] s3),
     mkWorld (cli w) (snd (check_for_match_in_result env [r] s3)) rest
       (trace w ++ opening name results ++ chosen_trace results r)).
Proof.
  intros Hnew Hsearch Hcheck Hin _ Hint Hrange.
  destruct (proj2 (getitem_some_iff results c)) as [r Hget]; [lia |].
  exists r. split; [| split; [exact Hget |]].
  - rewrite getitem_back in Hget by lia. exact Hget.
  - rewrite (resolve_unmatched env name w s1 results s2 s3 Hnew Hsearch Hcheck).
    rewrite (disambiguate_chosen env results VNone (mkWorld (cli w) s3 (stdin w) (trace w ++ opening name results)) line rest c r
               (fst (check_for_match_in_result env [r] s3))
               (snd (check_for_match_in_result env [r] s3)) Hin Hint Hget).
    + simpl. now rewrite <- app_assoc.
    + simpl. now destruct (check_for_match_in_result env [r] s3).
Qed.

(** C5, as the script has it.  A selection below [-N] or from [N]
    upwards, typed as text within the model of [int], makes the indexing of
    line 142 raise the interpreter's own [IndexError].  Nothing in [main]
    handles it: the run ends with it right after the question, before any
    further check and before the pipeline. *)
Theorem out_of_range_selection_is_IndexError
    (w w1 : world S Soup Config) s1 results s2 s3 line rest c :
  setup_logging env (log_level (cli w)) (logger_config (cli w)) w = (Ok tt, w1) ->
  series_name (cli w) <> "" ->
  WikipediaSeries env (ext w1) = (Ok tt, s1) ->
  search_by_name env (series_name (cli w)) s1 = (Ok results, s2) ->
  check_for_match_in_result env results s2 = (Ok VNone, s3) ->
  stdin w1 = line :: rest ->
  within_int_model line = true ->
  int line = Some c ->
  c < - Z.of_nat (length results) \/ Z.of_nat (length results) <= c ->
  main env w =
  (Raise IndexError,
   mkWorld (cli w1) s3 rest
     (trace w1 ++ [Log info ("seacrching for " ++ series_name (cli w))]
        ++ opening (series_name (cli w)) results ++ asked_trace results)).
Proof.
  intros Hsetup Hname Hnew Hsearch Hcheck Hin _ Hint Hrange.
  apply (main_resolve_raises w w1 _ IndexError Hsetup Hname).
  set (w2 := mkWorld (cli w1) (ext w1) (stdin w1)
               (trace w1 ++ [Log info ("seacrching for " ++ series_name (cli w))])).
  rewrite (resolve_unmatched env (series_name (cli w)) w2 s1 results s2 s3
             Hnew Hsearch Hcheck).
  rewrite (disambiguate_out_of_range env results VNone
             (mkWorld (cli w2) s3 (stdin w2)
                (trace w2 ++ opening (series_name (cli w)) results))
             line rest c Hin Hint (getitem_outside results c Hrange)).
  subst w2. simpl. now rewrite <- !app_assoc.
Qed.

(** C6, as the script has it.  ASCII text that [int] rejects makes line
    141 raise the interpreter's own [ValueError].  Nothing in [main]
    handles it: the run ends with it right after the question, before any
    indexing or further check and before the pipeline. *)
Theorem non_integer_selection_is_ValueError
    (w w1 : world S Soup Config) s1 results s2 s3 line rest :
  setup_logging env (log_level (cli w)) (logger_config (cli w)) w = (Ok tt, w1) ->
  series_name (cli w) <> "" ->
  WikipediaSeries env (ext w1) = (Ok tt, s1) ->
  search_by_name env (series_name (cli w)) s1 = (Ok results, s2) ->
  check_for_match_in_result env results s2 = (Ok VNone, s3) ->
  stdin w1 = line :: rest ->
  is_ascii_text line = true ->
  int line = None ->
  main env w =
  (Raise ValueError,
   mkWorld (cli w1) s3 rest
     (trace w1 ++ [Log info ("seacrching for " ++ series_name (cli w))]
        ++ opening (series_name (cli w)) results ++ asked_trace results)).
Proof.
  intros Hsetup Hname Hnew Hsearch Hcheck Hin _ Hint.
  apply (main_resolve_raises w w1 _ ValueError Hsetup Hname).
  set (w2 := mkWorld (cli w1) (ext w1) (stdin w1)
               (trace w1 ++ [Log info ("seacrching for " ++ series_name (cli w))])).
  rewrite (resolve_unmatched env (series_name (cli w)) w2 s1 results s2 s3
             Hnew Hsearch Hcheck).
  rewrite (disambiguate_not_int env results VNone
             (mkWorld (cli w2) s3 (stdin w2)
                (trace w2 ++ opening (series_name (cli w)) results))
             line rest Hin Hint).
  subst w2. simpl. now rewrite <- !app_assoc.
Qed.



End Claims.

Section Pipeline.
Context {S Soup Config : Type} (env : Env S Soup Config).

(** Without a match the pipeline stops at its first attribute read. *)
Lemma parse_and_persist_none (w : world S Soup Config) :
  parse_and_persist env VNone w = (Raise AttributeError, w).
Proof. reflexivity. Qed.


(** C4, as the script has it.  When the candidate chosen, by a selection
    typed as text within the model of [int], fails the check as a
    singleton, [found_match] is [None] and line 145 raises the
    interpreter's own [AttributeError] on reading its [url]; [main] ends
    with it, and no call of the parse/persist pipeline is made. *)
Theorem unconfirmed_selection_is_AttributeError
    (w w1 : world S Soup Config) s1 results s2 s3 line rest c r s4 :
  setup_logging env (log_level (cli w)) (logger_config (cli w)) w = (Ok tt, w1) ->
  series_name (cli w) <> "" ->
  WikipediaSeries env (ext w1) = (Ok tt, s1) ->
  search_by_name env (series_name (cli w)) s1 = (Ok results, s2) ->
  check_for_match_in_result env results s2 = (Ok VNone, s3) ->
  stdin w1 = line :: rest ->
  within_int_model line = true ->
  int line = Some c ->
  getitem results c = Some r ->
  check_for_match_in_result env [r] s3 = (Ok VNone, s4) ->
  exists w',
    main env w = (Raise AttributeError, w') /\
    trace w' =
      (trace w1 ++ [Log info ("seacrching for " ++ series_name (cli w))]
         ++ opening (series_name (cli w)) results ++ chosen_trace results r)%list /\
    pipeline_calls (trace w') = pipeline_calls (trace w1).
Proof.
  intros Hsetup Hname Hnew Hsearch Hcheck Hin _ Hint Hget Hagain.
  rewrite (main_named env w w1 Hsetup Hname). unfold bind at 1.
  set (w2 := mkWorld (cli w1) (ext w1) (stdin w1)
               (trace w1 ++ [Log info ("seacrching for " ++ series_name (cli w))])).
  rewrite (resolve_unmatched env (series_name (cli w)) w2 s1 results s2 s3
             Hnew Hsearch Hcheck).
  rewrite (disambiguate_chosen env results VNone
             (mkWorld (cli w2) s3 (stdin w2)
                (trace w2 ++ opening (series_name (cli w)) results))
             line rest c r (Ok VNone) s4 Hin Hint Hget Hagain).
  rewrite parse_and_persist_none. eexists. split; [reflexivity |].
  subst w2. simpl. split.
  - now rewrite <- !app_assoc.
  - rewrite !pipeline_calls_app, pipeline_calls_chosen_trace, pipeline_calls_opening.
    simpl. now rewrite !app_nil_r.
Qed.



End Pipeline.

Section Shell.
Context {S Soup Config : Type} (env : Env S Soup Config).

Lemma setup_logging_parse_raises lvl path (w : world S Soup Config) text s1 e :
  path <> "" ->
  open_read env path (ext w) = (Ok text, s1) ->
  json_loads env text = Raise e ->
  setup_logging env lvl path w =
  if isinstance_ValueError e
  then (Raise (SystemExit 1),
        mkWorld (cli w) s1 (stdin w)
          (trace w ++ [Call (OpenRead path); Stdout (not_json_message path)]))
  else (Raise e, mkWorld (cli w) s1 (stdin w) (trace w ++ [Call (OpenRead path)])).
Proof.
  intros Hpath Hopen Hjson.
  unfold setup_logging. rewrite (str_truthy_nonempty _ Hpath). unfold try_except.
  rewrite (bind_ok _ _ _ _ _ (outside_run _ _ _ _ _ Hopen)).
  rewrite Hjson.
  rewrite (bind_raise (inside (Raise e)) _ _ e _ eq_refl).
  destruct (isinstance_ValueError e); [| reflexivity].
  unfold bind, emit, throw. simpl. now rewrite <- app_assoc.
Qed.

(** C8, as the script has it.  With a log-config path supplied whose file
    can be read: when [json.loads] rejects the text with a [ValueError],
    as it does with its [JSONDecodeError] on text that is not JSON, [main]
    prints [File "<path>" is not valid json, cannot continue.] and ends at
    once with [SystemExit(1)], exit status 1, having done nothing but read
    the file; when [json.loads] raises anything else, that exception
    leaves [main] as it is and nothing is printed.  With no log-config,
    [setup_logging] prints nothing and raises nothing of its own: it is
    the one call [coloredlogs.install] at the level given, in upper case,
    and ends as that call ends. *)
Theorem unparseable_log_config_exits_with_1 :
  (forall (w : world S Soup Config) text s1 e,
      logger_config (cli w) <> "" ->
      open_read env (logger_config (cli w)) (ext w) = (Ok text, s1) ->
      json_loads env text = Raise e ->
      isinstance_ValueError e = true ->
      main env w =
      (Raise (SystemExit 1),
       mkWorld (cli w) s1 (stdin w)
         (trace w ++ [Call (OpenRead (logger_config (cli w)));
                      Stdout ("File " ++ dquote ++ logger_config (cli w) ++ dquote
                              ++ " is not valid json, cannot continue.")])) /\
      exit_code (fst (main env w)) = 1) /\
  (forall (w : world S Soup Config) text s1 e,
      logger_config (cli w) <> "" ->
      open_read env (logger_config (cli w)) (ext w) = (Ok text, s1) ->
      json_loads env text = Raise e ->
      isinstance_ValueError e = false ->
      main env w =
      (Raise e,
       mkWorld (cli w) s1 (stdin w)
         (trace w ++ [Call (OpenRead (logger_config (cli w)))]))) /\
  (forall lvl (w : world S Soup Config) out s1,
      coloredlogs_install env (upper (level_name lvl)) (ext w) = (out, s1) ->
      setup_logging env lvl "" w =
      (out, mkWorld (cli w) s1 (stdin w)
              (trace w ++ [Call (ColoredlogsInstall (upper (level_name lvl)))]))).
Proof.
  split; [| split].
  - intros w text s1 e Hpath Hopen Hjson Hclass.
    pose proof (setup_logging_parse_raises (log_level (cli w)) (logger_config (cli w))
                  w text s1 e Hpath Hopen Hjson) as Hsetup.
    rewrite Hclass in Hsetup.
    rewrite (main_setup_raises env w _ _ Hsetup). now split.
  - intros w text s1 e Hpath Hopen Hjson Hclass.
    pose proof (setup_logging_parse_raises (log_level (cli w)) (logger_config (cli w))
                  w text s1 e Hpath Hopen Hjson) as Hsetup.
    rewrite Hclass in Hsetup.
    exact (main_setup_raises env w _ _ Hsetup).
  - intros lvl w out s1 Hinstall. simpl. now apply outside_run.
Qed.

(** C9, as the script has it.  Once logging is set up, a series name that
    is not empty, be it blank, is passed to the search as it stands, and the
    match check is then run on the very list the search returned; an empty
    name fails the test of line 133, and [main] returns without having
    searched. *)
Theorem search_is_issued_for_nonempty_names (w w1 : world S Soup Config) :
  setup_logging env (log_level (cli w)) (logger_config (cli w)) w = (Ok tt, w1) ->
  (series_name (cli w) = "" -> main env w = (Ok tt, w1)) /\
  (series_name (cli w) <> "" ->
   forall s1 results s2,
     WikipediaSeries env (ext w1) = (Ok tt, s1) ->
     search_by_name env (series_name (cli w)) s1 = (Ok results, s2) ->
     exists tail,
       trace (snd (main env w)) =
       (trace w1 ++ [Log info ("seacrching for " ++ series_name (cli w))]
          ++ opening (series_name (cli w)) results ++ tail)%list).
Proof.
  intros Hsetup. split.
  - intros Hname. now apply main_unnamed.
  - intros Hname s1 results s2 Hnew Hsearch.
    rewrite (main_named env w w1 Hsetup Hname).
    set (name := series_name (cli w)).
    set (w2 := mkWorld (cli w1) (ext w1) (stdin w1)
                 (trace w1 ++ [Log info ("seacrching for " ++ name)])).
    destruct (check_for_match_in_result env results s2) as [[found | e] s3] eqn:Hcheck.
    + unfold bind at 1.
      rewrite (resolve_checked env name w2 s1 results s2 found s3 Hnew Hsearch Hcheck).
      set (w3 := mkWorld (cli w2) s3 (stdin w2) (trace w2 ++ opening name results)).
      assert (Hrest : grows (fun v =>
                 match (if negb (truthy found)
                        then disambiguate env results found else ret found) v with
                 | (Ok a, w') => parse_and_persist env a w'
                 | (Raise x, w') => (Raise x, w')
                 end)).
      { apply (grows_bind (if negb (truthy found)
                           then disambiguate env results found else ret found)
                 (parse_and_persist env)).
        - destruct (negb (truthy found)); [apply grows_disambiguate | apply grows_ret].
        - apply grows_parse_and_persist. }
      destruct (Hrest w3) as [tail Htail]. exists tail.
      rewrite Htail. subst w3 w2. simpl. now rewrite <- !app_assoc.
    + assert (Hres : resolve env name w2 =
                (Raise e, mkWorld (cli w2) s3 (stdin w2) (trace w2 ++ opening name results))).
      { unfold resolve.
        rewrite (bind_ok _ _ w2 _ _ (outside_run _ _ w2 _ _ Hnew)).
        set (v1 := mkWorld (cli w2) s1 (stdin w2) (trace w2 ++ [Call NewSeries])).
        rewrite (bind_ok _ _ v1 _ _ (outside_run _ _ v1 _ _ Hsearch)).
        set (v2 := mkWorld (cli v1) s2 (stdin v1) (trace v1 ++ [Call (SearchByName name)])).
        rewrite (bind_raise _ _ v2 _ _ (outside_run _ _ v2 _ _ Hcheck)).
        subst v2 v1. simpl. unfold opening. now rewrite <- !app_assoc. }
      rewrite (bind_raise _ _ _ _ _ Hres). exists []. subst w2. simpl.
      now rewrite <- !app_assoc.
Qed.

End Shell.

(** ** The claims on the concrete world

    Each run below is computed by the script on [Demo.env]. *)

Module Runs.
Import Demo.

(** The spec's first scenario: "Chernobyl" has one exact hit, a
    miniseries; nothing is asked and the parser is told so. *)
Example chernobyl_end_to_end :
  main env (start "" "Chernobyl" []) =
  (Ok tt,
   mkWorld (mkArgs "" info "Chernobyl") 8%nat []
     [Call (ColoredlogsInstall "INFO");
      Log info "seacrching for Chernobyl";
      Call NewSeries;
      Call (SearchByName "Chernobyl");
      Call (CheckForMatch [chernobyl]);
      Call (GetSoup (url chernobyl));
      Call (ParseTitleAndType (VResult chernobyl));
      Call (ParseSeasonsAndEpisodes ("<html>" ++ url chernobyl ++ "</html>") true);
      Call WriteToFileSystem]).
Proof. reflexivity. Qed.

(** The spec's second scenario: "Dark" has three candidates, the
    operator enters 1. *)
Example dark_end_to_end :
  main env (start "" "Dark" ["1"]) =
  (Ok tt,
   mkWorld (mkArgs "" info "Dark") 9%nat []
     [Call (ColoredlogsInstall "INFO");
      Log info "seacrching for Dark";
      Call NewSeries;
      Call (SearchByName "Dark");
      Call (CheckForMatch [dark; dark_series; dark_film]);
      Log info "0:Dark";
      Log info "1:Dark (2017 TV series)";
      Log info "2:Dark (film)";
      Input selection_prompt;
      Log debug "You chose: Dark (2017 TV series)";
      Call (CheckForMatch [dark_series]);
      Call (GetSoup (url dark_series));
      Call (ParseTitleAndType (VResult dark_series));
      Call (ParseSeasonsAndEpisodes ("<html>" ++ url dark_series ++ "</html>") false);
      Call WriteToFileSystem]).
Proof. reflexivity. Qed.

(** C3 at the query "Chernobyl": one miniseries, returned unasked. *)
Lemma authoritative_match_needs_no_operator_witness :
  exists w',
    resolve env "Chernobyl" (start "" "Chernobyl" ["7"]) = (Ok (VResult chernobyl), w') /\
    stdin w' = ["7"] /\
    trace w' = opening "Chernobyl" [chernobyl] /\
    prompts (trace w') = 0%nat /\
    info_lines (trace w') = [].
Proof.
  exact (authoritative_match_needs_no_operator env "Chernobyl"
           (start "" "Chernobyl" ["7"]) 1%nat [chernobyl] 2%nat chernobyl 3%nat
           eq_refl eq_refl eq_refl).
Defined.



(** C10 at the query "Dark", the operator typing -2. *)
Lemma negative_selection_counts_from_the_end_witness :
  exists r,
    nth_error [dark; dark_series; dark_film] 1 = Some r /\
    getitem [dark; dark_series; dark_film] (-2) = Some r /\
    resolve env "Dark" (start "" "Dark" ["-2"]) =
    (fst (check_for_match_in_result env [r] 3%nat),
     mkWorld (mkArgs "" info "Dark") (snd (check_for_match_in_result env [r] 3%nat)) []
       (opening "Dark" [dark; dark_series; dark_film]
          ++ chosen_trace [dark; dark_series; dark_film] r)).
Proof.
  refine (negative_selection_counts_from_the_end env "Dark" (start "" "Dark" ["-2"])
            1%nat [dark; dark_series; dark_film] 2%nat 3%nat "-2" [] (-2)
            eq_refl eq_refl eq_refl eq_refl eq_refl eq_refl _).
  simpl. lia.
Defined.

(** C5 at the query "Dark", the operator typing 3, the length of the list. *)
Lemma out_of_range_selection_is_IndexError_witness :
  main env (start "" "Dark" ["3"]) =
  (Raise IndexError,
   mkWorld (mkArgs "" info "Dark") 4%nat []
     ([Call (ColoredlogsInstall "INFO"); Log info "seacrching for Dark"]
        ++ opening "Dark" [dark; dark_series; dark_film]
        ++ asked_trace [dark; dark_series; dark_film])).
Proof.
  refine (out_of_range_selection_is_IndexError env (start "" "Dark" ["3"])
            (mkWorld (mkArgs "" info "Dark") 1%nat ["3"] [Call (ColoredlogsInstall "INFO")])
            2%nat [dark; dark_series; dark_film] 3%nat 4%nat "3" [] 3
            eq_refl _ eq_refl eq_refl eq_refl eq_refl eq_refl eq_refl _).
  - discriminate.
  - right. simpl. lia.
Defined.

(** C5 as stated fails twice over: typing 3, the length of the list, ends
    in [IndexError], the very out-of-bounds fault; and typing -2, which is
    outside [0 <= choice < 3], is not refused at all. *)
Lemma out_of_range_selection_counterexample :
  int "3" = Some 3 /\
  length (search "Dark") = 3%nat /\
  fst (resolve env "Dark" (start "" "Dark" ["3"])) = Raise (Exn "IndexError") /\
  fst (resolve env "Dark" (start "" "Dark" ["3"])) <> Raise (Exn "InvalidSelectionError") /\
  int "-2" = Some (-2) /\
  fst (resolve env "Dark" (start "" "Dark" ["-2"])) = Ok (VResult dark_series).
Proof.
  repeat split; try reflexivity. vm_compute. discriminate.
Qed.

(** C6 at the query "Dark", the operator typing abc. *)
Lemma non_integer_selection_is_ValueError_witness :
  main env (start "" "Dark" ["abc"]) =
  (Raise ValueError,
   mkWorld (mkArgs "" info "Dark") 4%nat []
     ([Call (ColoredlogsInstall "INFO"); Log info "seacrching for Dark"]
        ++ opening "Dark" [dark; dark_series; dark_film]
        ++ asked_trace [dark; dark_series; dark_film])).
Proof.
  refine (non_integer_selection_is_ValueError env (start "" "Dark" ["abc"])
            (mkWorld (mkArgs "" info "Dark") 1%nat ["abc"] [Call (ColoredlogsInstall "INFO")])
            2%nat [dark; dark_series; dark_film] 3%nat 4%nat "abc" []
            eq_refl _ eq_refl eq_refl eq_refl eq_refl eq_refl eq_refl).
  discriminate.
Defined.

(** C6 as stated fails: typing abc ends in [ValueError], the fault [int]
    itself raises, which nothing in [main] handles. *)
Lemma non_integer_selection_counterexample :
  int "abc" = None /\
  fst (resolve env "Dark" (start "" "Dark" ["abc"])) = Raise (Exn "ValueError") /\
  fst (resolve env "Dark" (start "" "Dark" ["abc"])) <> Raise (Exn "NonIntegerSelectionError") /\
  fst (main env (start "" "Dark" ["abc"])) = Raise (Exn "ValueError").
Proof.
  repeat split; try reflexivity. vm_compute. discriminate.
Qed.



(** C4 at the query "Dark", the operator typing 2, the film. *)
Lemma unconfirmed_selection_is_AttributeError_witness :
  exists w',
    main env (start "" "Dark" ["2"]) = (Raise AttributeError, w') /\
    trace w' =
      ([Call (ColoredlogsInstall "INFO"); Log info "seacrching for Dark"]
         ++ opening "Dark" [dark; dark_series; dark_film]
         ++ chosen_trace [dark; dark_series; dark_film] dark_film)%list /\
    pipeline_calls (trace w') = [].
Proof.
  exact (unconfirmed_selection_is_AttributeError env (start "" "Dark" ["2"])
           (mkWorld (mkArgs "" info "Dark") 1%nat ["2"] [Call (ColoredlogsInstall "INFO")])
           2%nat [dark; dark_series; dark_film] 3%nat 4%nat "2" [] 2 dark_film 5%nat
           eq_refl ltac:(discriminate) eq_refl eq_refl eq_refl eq_refl eq_refl eq_refl
           eq_refl eq_refl).
Defined.

(** C4 as stated fails: the unconfirmed choice ends the run in
    [AttributeError], raised by reading [url] of [None]. *)
Lemma unconfirmed_selection_counterexample :
  check [dark_film] = VNone /\
  fst (main env (start "" "Dark" ["2"])) = Raise (Exn "AttributeError") /\
  fst (main env (start "" "Dark" ["2"])) <> Raise (Exn "UnconfirmedSelectionError").
Proof.
  repeat split; try reflexivity. vm_compute. discriminate.
Qed.


(** C8 with a configuration file that is not JSON. *)
Lemma unparseable_log_config_exits_with_1_witness :
  main env (start "bad.json" "Dark" ["1"]) =
  (Raise (SystemExit 1),
   mkWorld (mkArgs "bad.json" info "Dark") 1%nat ["1"]
     [Call (OpenRead "bad.json");
      Stdout ("File " ++ dquote ++ "bad.json" ++ dquote
              ++ " is not valid json, cannot continue.")]) /\
  exit_code (fst (main env (start "bad.json" "Dark" ["1"]))) = 1.
Proof.
  exact (proj1 (unparseable_log_config_exits_with_1 env)
           (start "bad.json" "Dark" ["1"]) "{" 1%nat (Exn "JSONDecodeError")
           ltac:(discriminate) eq_refl eq_refl eq_refl).
Defined.

(** C8 as stated fails: the file [deep.json] of [Faulty] holds a thousand
    opening brackets, which is not JSON, and parsing it ends in
    [RecursionError]; the run ends with that exception, not with
    [SystemExit(1)], and no diagnostic is printed. *)
Lemma unparseable_log_config_counterexample :
  open_read Faulty.env "deep.json" 0%nat = (Ok (Faulty.brackets 1000), 1%nat) /\
  json_loads Faulty.env (Faulty.brackets 1000) = Raise (Exn "RecursionError") /\
  main Faulty.env (start "deep.json" "Dark" ["1"]) =
  (Raise (Exn "RecursionError"),
   mkWorld (mkArgs "deep.json" info "Dark") 1%nat ["1"] [Call (OpenRead "deep.json")]) /\
  fst (main Faulty.env (start "deep.json" "Dark" ["1"])) <> Raise (SystemExit 1).
Proof.
  repeat split; try (vm_compute; reflexivity). vm_compute. discriminate.
Qed.

(** C9 with a name that is one blank. *)
Lemma search_is_issued_for_nonempty_names_witness :
  exists tail,
    trace (snd (main env (start "" " " ["0"]))) =
    ([Call (ColoredlogsInstall "INFO"); Log info "seacrching for  "]
       ++ opening " " [] ++ tail)%list.
Proof.
  exact (proj2 (search_is_issued_for_nonempty_names env (start "" " " ["0"])
                  (mkWorld (mkArgs "" info " ") 1%nat ["0"] [Call (ColoredlogsInstall "INFO")])
                  eq_refl)
           ltac:(discriminate) 2%nat [] 3%nat eq_refl eq_refl).
Defined.

(** C9 as stated fails: with the empty name no search is issued. *)
Lemma empty_name_counterexample :
  main env (start "" "" ["0"]) =
  (Ok tt, mkWorld (mkArgs "" info "") 1%nat ["0"] [Call (ColoredlogsInstall "INFO")]) /\
  searches (trace (snd (main env (start "" "" ["0"])))) = [].
Proof. split; reflexivity. Qed.

End Runs.

(** ** Beyond the claims: what a run never does *)

Section Readings.
Context {S Soup Config X : Type}.
Variable rd : list (event Soup Config) -> list X.
Hypothesis rd_app : forall t u, rd (t ++ u) = (rd t ++ rd u)%list.

Lemma keeps_ret {A} (a : A) : keeps rd (@ret S Soup Config A a).
Proof. intros w. reflexivity. Qed.

Lemma keeps_throw {A} e : keeps rd (@throw S Soup Config A e).
Proof. intros w. reflexivity. Qed.

Lemma keeps_or_raise {A} (o : option A) e : keeps rd (@or_raise S Soup Config A o e).
Proof. destruct o; [apply keeps_ret | apply keeps_throw]. Qed.

Lemma keeps_attr field found : keeps rd (@attr S Soup Config field found).
Proof. destruct found; [apply keeps_throw | apply keeps_ret]. Qed.

Lemma keeps_get_arguments : keeps rd (@get_arguments S Soup Config).
Proof. intros w. reflexivity. Qed.

Lemma keeps_emit ev : rd [ev] = [] -> keeps rd (@emit S Soup Config ev).
Proof. intros Hev w. simpl. now rewrite rd_app, Hev, app_nil_r. Qed.

Lemma keeps_outside {A} (c : call Soup Config) (f : S -> res A * S) :
  rd [Call c] = [] -> keeps rd (outside c f).
Proof.
  intros Hc w. unfold outside. destruct (f (ext w)) as [out s']. simpl.
  now rewrite rd_app, Hc, app_nil_r.
Qed.

Lemma keeps_input prompt : rd [Input prompt] = [] -> keeps rd (@input S Soup Config prompt).
Proof.
  intros Hp w. unfold input.
  destruct (stdin w); simpl; now rewrite rd_app, Hp, app_nil_r.
Qed.

Lemma keeps_bind {A B} (c : M S Soup Config A) (k : A -> M S Soup Config B) :
  keeps rd c -> (forall a, keeps rd (k a)) -> keeps rd (bind c k).
Proof.
  intros Hc Hk w. unfold bind. specialize (Hc w).
  destruct (c w) as [[a | e] w1]; simpl in *.
  - now rewrite Hk.
  - exact Hc.
Qed.

Lemma keeps_try_except {A} (body handler : M S Soup Config A) handles :
  keeps rd body -> keeps rd handler -> keeps rd (try_except body handles handler).
Proof.
  intros Hb Hh w. unfold try_except. specialize (Hb w).
  destruct (body w) as [[a | e] w1]; simpl in *.
  - exact Hb.
  - destruct (handles e); simpl; [now rewrite Hh | exact Hb].
Qed.

Lemma rd_logs (lines : list string) :
  (forall message, rd [Log info message] = []) ->
  rd (map (@Log Soup Config info) lines) = [].
Proof.
  intros Hlog. induction lines as [| l rest IH]; simpl.
  - pose proof (rd_app [Log info ""] []) as Hnil.
    simpl in Hnil. rewrite (Hlog "") in Hnil. symmetry. exact Hnil.
  - change (Log info l :: map (Log info) rest)
      with ([@Log Soup Config info l] ++ map (Log info) rest)%list.
    now rewrite rd_app, Hlog, IH.
Qed.

Lemma keeps_listing idx results :
  (forall message, rd [Log info message] = []) ->
  keeps rd (for_enumerate idx results
              (fun i search_result =>
                 @LOGGER S Soup Config info (str_of_nat i ++ ":" ++ title search_result))).
Proof.
  intros Hlog w. rewrite listing_run. simpl.
  now rewrite rd_app, (rd_logs _ Hlog), app_nil_r.
Qed.

Lemma at_most_one_keeps {A} x (c : M S Soup Config A) :
  keeps rd c -> at_most_one rd x c.
Proof. intros Hc w. left. apply Hc. Qed.

Lemma at_most_one_outside {A} x (c : call Soup Config) (f : S -> res A * S) :
  rd [Call c] = [x] -> at_most_one rd x (outside c f).
Proof.
  intros Hc w. right. unfold outside. destruct (f (ext w)) as [out s']. simpl.
  now rewrite rd_app, Hc.
Qed.

Lemma at_most_one_then {A B} x (c : M S Soup Config A) (k : A -> M S Soup Config B) :
  at_most_one rd x c -> (forall a, keeps rd (k a)) -> at_most_one rd x (bind c k).
Proof.
  intros Hc Hk w. unfold bind. specialize (Hc w).
  destruct (c w) as [[a | e] w1]; simpl in *.
  - now rewrite Hk.
  - exact Hc.
Qed.

Lemma at_most_one_after {A B} x (c : M S Soup Config A) (k : A -> M S Soup Config B) :
  keeps rd c -> (forall a, at_most_one rd x (k a)) -> at_most_one rd x (bind c k).
Proof.
  intros Hc Hk w. unfold bind. specialize (Hc w).
  destruct (c w) as [[a | e] w1]; simpl in *.
  - rewrite <- Hc. apply Hk.
  - left. exact Hc.
Qed.

End Readings.

(** One step of a proof that a computation keeps a reading, [H] being the
    reading's equation on appended traces. *)
Ltac keeps_step H :=
  first
    [ apply keeps_ret | apply keeps_throw | apply keeps_or_raise
    | apply keeps_attr | apply keeps_get_arguments
    | apply (keeps_emit _ H); reflexivity
    | apply (keeps_outside _ H); reflexivity
    | apply (keeps_input _ H); reflexivity
    | apply (keeps_listing _ H); intro; reflexivity
    | apply keeps_try_except
    | apply keeps_bind; [| intro] ].

Ltac keeps_all H := repeat (cbn [truthy]; cbv iota; keeps_step H).

Section Quiet.
Context {S Soup Config : Type}.

Lemma stdin_ret {A} (a : A) : leaves_stdin (@ret S Soup Config A a).
Proof. intros w. reflexivity. Qed.

Lemma stdin_throw {A} e : leaves_stdin (@throw S Soup Config A e).
Proof. intros w. reflexivity. Qed.

Lemma stdin_or_raise {A} (o : option A) e : leaves_stdin (@or_raise S Soup Config A o e).
Proof. destruct o; [apply stdin_ret | apply stdin_throw]. Qed.

Lemma stdin_attr field found : leaves_stdin (@attr S Soup Config field found).
Proof. destruct found; [apply stdin_throw | apply stdin_ret]. Qed.

Lemma stdin_get_arguments : leaves_stdin (@get_arguments S Soup Config).
Proof. intros w. reflexivity. Qed.

Lemma stdin_emit ev : leaves_stdin (@emit S Soup Config ev).
Proof. intros w. reflexivity. Qed.

Lemma stdin_outside {A} (c : call Soup Config) (f : S -> res A * S) :
  leaves_stdin (outside c f).
Proof. intros w. unfold outside. now destruct (f (ext w)). Qed.

Lemma stdin_bind {A B} (c : M S Soup Config A) (k : A -> M S Soup Config B) :
  leaves_stdin c -> (forall a, leaves_stdin (k a)) -> leaves_stdin (bind c k).
Proof.
  intros Hc Hk w. unfold bind. specialize (Hc w).
  destruct (c w) as [[a | e] w1]; simpl in *.
  - now rewrite Hk.
  - exact Hc.
Qed.

Lemma stdin_try_except {A} (body handler : M S Soup Config A) handles :
  leaves_stdin body -> leaves_stdin handler ->
  leaves_stdin (try_except body handles handler).
Proof.
  intros Hb Hh w. unfold try_except. specialize (Hb w).
  destruct (body w) as [[a | e] w1]; simpl in *.
  - exact Hb.
  - destruct (handles e); simpl; [now rewrite Hh | exact Hb].
Qed.

Lemma stdin_listing idx results :
  leaves_stdin (for_enumerate idx results
                  (fun i search_result =>
                     @LOGGER S Soup Config info (str_of_nat i ++ ":" ++ title search_result))).
Proof. intros w. now rewrite listing_run. Qed.

Lemma asks_once_quiet {A} (c : M S Soup Config A) :
  leaves_stdin c -> keeps (filter is_prompt) c -> asks_once c.
Proof. intros Hin Hp w. left. split; [apply Hin | apply Hp]. Qed.

Lemma asks_once_input : asks_once (@input S Soup Config selection_prompt).
Proof.
  intros w. right. unfold input.
  destruct (stdin w) as [| line rest]; simpl; now rewrite filter_app.
Qed.

Lemma asks_once_after {A B} (c : M S Soup Config A) (k : A -> M S Soup Config B) :
  leaves_stdin c -> keeps (filter is_prompt) c ->
  (forall a, asks_once (k a)) -> asks_once (bind c k).
Proof.
  intros Hin Hp Hk w. unfold bind. specialize (Hin w). specialize (Hp w).
  destruct (c w) as [[a | e] w1]; simpl in *.
  - rewrite <- Hin, <- Hp. apply Hk.
  - left. now split.
Qed.

Lemma asks_once_then {A B} (c : M S Soup Config A) (k : A -> M S Soup Config B) :
  asks_once c ->
  (forall a, leaves_stdin (k a)) -> (forall a, keeps (filter is_prompt) (k a)) ->
  asks_once (bind c k).
Proof.
  intros Hc Hin Hp w. unfold bind. specialize (Hc w).
  destruct (c w) as [[a | e] w1]; simpl in *.
  - now rewrite Hin, Hp.
  - exact Hc.
Qed.

End Quiet.

Ltac stdin_step :=
  first
    [ apply stdin_ret | apply stdin_throw | apply stdin_or_raise
    | apply stdin_attr | apply stdin_get_arguments | apply stdin_emit
    | apply stdin_outside | apply stdin_listing
    | apply stdin_try_except
    | apply stdin_bind; [| intro] ].

Ltac stdin_all := repeat (cbn [truthy]; cbv iota; stdin_step).

Section Sparing.
Context {S Soup Config : Type} (env : Env S Soup Config).

Lemma filter_app_events (f : event Soup Config -> bool) (t u : list (event Soup Config)) :
  filter f (t ++ u) = (filter f t ++ filter f u)%list.
Proof. apply filter_app. Qed.

(** **** The question *)

Lemma setup_logging_asks_nothing lvl path :
  leaves_stdin (setup_logging env lvl path) /\
  keeps (filter is_prompt) (setup_logging env lvl path).
Proof.
  unfold setup_logging. split; destruct (str_truthy path).
  - stdin_all.
  - stdin_all.
  - keeps_all (filter_app_events is_prompt).
  - keeps_all (filter_app_events is_prompt).
Qed.

Lemma parse_and_persist_asks_nothing found :
  leaves_stdin (parse_and_persist env found) /\
  keeps (filter is_prompt) (parse_and_persist env found).
Proof.
  unfold parse_and_persist. split.
  - stdin_all.
  - keeps_all (filter_app_events is_prompt).
Qed.

Lemma disambiguate_asks_once results found : asks_once (disambiguate env results found).
Proof.
  unfold disambiguate, LOGGER.
  apply asks_once_after.
  - apply stdin_listing.
  - apply (keeps_listing _ (filter_app_events is_prompt)). intro. reflexivity.
  - intros _. apply asks_once_then.
    + apply asks_once_input.
    + intro line. stdin_all.
    + intro line. keeps_all (filter_app_events is_prompt).
Qed.

Lemma resolve_asks_once name : asks_once (resolve env name).
Proof.
  unfold resolve.
  apply asks_once_after; [stdin_all | keeps_all (filter_app_events is_prompt) | intros _].
  apply asks_once_after; [stdin_all | keeps_all (filter_app_events is_prompt) | intros results].
  apply asks_once_after; [stdin_all | keeps_all (filter_app_events is_prompt) | intros found].
  destruct (negb (truthy found)).
  - apply disambiguate_asks_once.
  - apply asks_once_quiet; [apply stdin_ret | apply keeps_ret].
Qed.

(** X7. In every run, whatever the outside world answers, [main] either
    asks nothing and leaves the operator's input as it was, or asks the
    selection question exactly once and takes exactly one line (none when
    the input has ended): it never asks again and never reads ahead. *)
Theorem operator_is_asked_at_most_once (w : world S Soup Config) :
  (stdin (snd (main env w)) = stdin w /\
   filter is_prompt (trace (snd (main env w))) = filter is_prompt (trace w)) \/
  (stdin (snd (main env w)) = tl (stdin w) /\
   filter is_prompt (trace (snd (main env w))) =
   (filter is_prompt (trace w) ++ [Input selection_prompt])%list).
Proof.
  revert w. change (asks_once (main env)). unfold main.
  apply asks_once_after;
    [apply stdin_get_arguments | apply keeps_get_arguments | intros args].
  apply asks_once_after;
    [apply setup_logging_asks_nothing | apply setup_logging_asks_nothing | intros _].
  destruct (str_truthy (series_name args)).
  - unfold LOGGER.
    apply asks_once_after;
      [stdin_all | keeps_all (filter_app_events is_prompt) | intros _].
    apply asks_once_then.
    + apply resolve_asks_once.
    + intros found. apply parse_and_persist_asks_nothing.
    + intros found. apply parse_and_persist_asks_nothing.
  - apply asks_once_quiet; [apply stdin_ret | apply keeps_ret].
Qed.

(** **** The search *)

Lemma disambiguate_searches_nothing results found :
  keeps searches (disambiguate env results found).
Proof. unfold disambiguate, LOGGER. keeps_all (@searches_app Soup Config). Qed.

Lemma resolve_searches_once name : at_most_one searches name (resolve env name).
Proof.
  unfold resolve.
  apply at_most_one_after; [keeps_all (@searches_app Soup Config) | intros _].
  apply at_most_one_then.
  - apply (at_most_one_outside _ (@searches_app Soup Config)). reflexivity.
  - intros results.
    apply keeps_bind; [keeps_all (@searches_app Soup Config) | intros found].
    destruct (negb (truthy found)).
    + apply disambiguate_searches_nothing.
    + apply keeps_ret.
Qed.

(** X8. In every run [main] issues no search at all, or exactly one, and
    that one with the series name exactly as the command line gave it. *)
Theorem search_is_issued_at_most_once (w : world S Soup Config) :
  searches (trace (snd (main env w))) = searches (trace w) \/
  searches (trace (snd (main env w))) =
  (searches (trace w) ++ [series_name (cli w)])%list.
Proof.
  change (main env w) with
    ((setup_logging env (log_level (cli w)) (logger_config (cli w)) ;;
      if str_truthy (series_name (cli w)) then
        LOGGER info ("seacrching for " ++ series_name (cli w)) ;;
        found_match <- resolve env (series_name (cli w)) ;;
        parse_and_persist env found_match
      else ret tt) w).
  generalize (series_name (cli w)) as name. intros name.
  generalize (log_level (cli w)) as lvl, (logger_config (cli w)) as path.
  intros lvl path. revert w.
  change (at_most_one searches name
            (setup_logging env lvl path ;;
             if str_truthy name then
               LOGGER info ("seacrching for " ++ name) ;;
               found_match <- resolve env name ;;
               parse_and_persist env found_match
             else ret tt)).
  apply at_most_one_after.
  - unfold setup_logging. destruct (str_truthy path);
      keeps_all (@searches_app Soup Config).
  - intros _. destruct (str_truthy name).
    + unfold LOGGER.
      apply at_most_one_after; [keeps_all (@searches_app Soup Config) | intros _].
      apply at_most_one_then; [apply resolve_searches_once | intros found].
      unfold parse_and_persist. keeps_all (@searches_app Soup Config).
    + apply at_most_one_keeps. apply keeps_ret.
Qed.

End Sparing.

Section Outcomes.
Context {S Soup Config : Type} (env : Env S Soup Config).

(** **** The pipeline, outcome by outcome *)

Lemma parse_and_persist_table m (w : world S Soup Config) :
  parse_and_persist env (VResult m) w =
  match get_soup_by_url env (url m) (ext w) with
  | (Raise e, s1) =>
      (Raise e, mkWorld (cli w) s1 (stdin w) (trace w ++ [Call (GetSoup (url m))]))
  | (Ok soup, s1) =>
      match parse_series_title_and_type env (VResult m) s1 with
      | (Raise e, s2) =>
          (Raise e,
           mkWorld (cli w) s2 (stdin w)
             (trace w ++ [Call (GetSoup (url m));
                          Call (ParseTitleAndType (VResult m))]))
      | (Ok _, s2) =>
          let flag := String.eqb (query_type m) "miniseries" in
          match parse_seasons_and_episodes_from_soup env soup flag s2 with
          | (Raise e, s3) =>
              (Raise e,
               mkWorld (cli w) s3 (stdin w)
                 (trace w ++ [Call (GetSoup (url m));
                              Call (ParseTitleAndType (VResult m));
                              Call (ParseSeasonsAndEpisodes soup flag)]))
          | (Ok _, s3) =>
              (fst (write_to_file_system env s3),
               mkWorld (cli w) (snd (write_to_file_system env s3)) (stdin w)
                 (trace w ++ [Call (GetSoup (url m));
                              Call (ParseTitleAndType (VResult m));
                              Call (ParseSeasonsAndEpisodes soup flag);
                              Call WriteToFileSystem]))
          end
      end
  end.
Proof.
  unfold parse_and_persist.
  rewrite (bind_ok _ _ w (url m) w) by reflexivity.
  destruct (get_soup_by_url env (url m) (ext w)) as [[soup | e] s1] eqn:Hsoup.
  - rewrite (bind_ok _ _ _ _ _ (outside_run _ _ _ _ _ Hsoup)).
    set (w1 := mkWorld (cli w) s1 (stdin w) (trace w ++ [Call (GetSoup (url m))])).
    destruct (parse_series_title_and_type env (VResult m) s1) as [[[] | e] s2] eqn:Htitle.
    + rewrite (bind_ok _ _ w1 _ _ (outside_run _ _ w1 _ _ Htitle)).
      set (w2 := mkWorld (cli w1) s2 (stdin w1)
                   (trace w1 ++ [Call (ParseTitleAndType (VResult m))])).
      rewrite (bind_ok _ _ w2 (query_type m) w2) by reflexivity.
      replace (if String.eqb (query_type m) "miniseries" then true else false)
        with (String.eqb (query_type m) "miniseries")
        by now destruct (String.eqb (query_type m) "miniseries").
      cbv zeta.
      destruct (parse_seasons_and_episodes_from_soup env soup
                  (String.eqb (query_type m) "miniseries") s2)
        as [[[] | e] s3] eqn:Hparse.
      * rewrite (bind_ok _ _ w2 _ _ (outside_run _ _ w2 _ _ Hparse)).
        set (w3 := mkWorld (cli w2) s3 (stdin w2)
                     (trace w2 ++ [Call (ParseSeasonsAndEpisodes soup
                                           (String.eqb (query_type m) "miniseries"))])).
        rewrite (outside_run _ _ w3 _ _
                   (surjective_pairing (write_to_file_system env s3))).
        subst w3 w2 w1. simpl. now rewrite <- !app_assoc.
      * rewrite (bind_raise _ _ w2 _ _ (outside_run _ _ w2 _ _ Hparse)).
        subst w2 w1. simpl. now rewrite <- !app_assoc.
    + rewrite (bind_raise _ _ w1 _ _ (outside_run _ _ w1 _ _ Htitle)).
      subst w1. simpl. now rewrite <- !app_assoc.
  - now rewrite (bind_raise _ _ _ _ _ (outside_run _ _ _ _ _ Hsoup)).
Qed.

(** X5. The pipeline writes at most once, and it writes only when
    fetching the page, parsing title and type, and parsing seasons and
    episodes have all returned: after any failure nothing is written. *)
Theorem nothing_is_written_after_a_failure found (w : world S Soup Config) :
  filter is_write (trace (snd (parse_and_persist env found w))) =
  filter is_write (trace w) \/
  (filter is_write (trace (snd (parse_and_persist env found w))) =
   (filter is_write (trace w) ++ [Call WriteToFileSystem])%list /\
   exists m soup s1 s2 s3,
     found = VResult m /\
     get_soup_by_url env (url m) (ext w) = (Ok soup, s1) /\
     parse_series_title_and_type env found s1 = (Ok tt, s2) /\
     parse_seasons_and_episodes_from_soup env soup
       (String.eqb (query_type m) "miniseries") s2 = (Ok tt, s3)).
Proof.
  destruct found as [| m].
  - left. now rewrite parse_and_persist_none.
  - rewrite parse_and_persist_table.
    destruct (get_soup_by_url env (url m) (ext w)) as [[soup | e] s1] eqn:Hsoup.
    + destruct (parse_series_title_and_type env (VResult m) s1)
        as [[[] | e] s2] eqn:Htitle.
      * cbv zeta.
        destruct (parse_seasons_and_episodes_from_soup env soup
                    (String.eqb (query_type m) "miniseries") s2)
          as [[[] | e] s3] eqn:Hparse.
        -- right. simpl. rewrite filter_app. simpl. split; [reflexivity |].
           now exists m, soup, s1, s2, s3.
        -- left. simpl. rewrite filter_app. simpl. apply app_nil_r.
      * left. simpl. rewrite filter_app. simpl. apply app_nil_r.
    + left. simpl. rewrite filter_app. simpl. apply app_nil_r.
Qed.

Lemma parse_and_persist_returns found (w w' : world S Soup Config) :
  parse_and_persist env found w = (Ok tt, w') ->
  exists t, trace w' = (t ++ [Call WriteToFileSystem])%list.
Proof.
  destruct found as [| m].
  - rewrite parse_and_persist_none. discriminate.
  - rewrite parse_and_persist_table.
    destruct (get_soup_by_url env (url m) (ext w)) as [[soup | e] s1];
      [| discriminate].
    destruct (parse_series_title_and_type env (VResult m) s1) as [[[] | e] s2];
      [| discriminate].
    cbv zeta.
    destruct (parse_seasons_and_episodes_from_soup env soup
                (String.eqb (query_type m) "miniseries") s2) as [[[] | e] s3];
      [| discriminate].
    intros Hrun. injection Hrun as _ <-. simpl.
    exists (trace w ++ [Call (GetSoup (url m));
                        Call (ParseTitleAndType (VResult m));
                        Call (ParseSeasonsAndEpisodes soup
                                (String.eqb (query_type m) "miniseries"))])%list.
    now rewrite <- app_assoc.
Qed.

(** X6. [main] returns normally only in two ways: the series name was
    empty, and then nothing was searched; or the last thing it did was the
    write to the file system.  Every other run ends in an exception. *)
Theorem normal_return_means_written (w w' : world S Soup Config) :
  main env w = (Ok tt, w') ->
  (series_name (cli w) = "" /\ searches (trace w') = searches (trace w)) \/
  exists t, trace w' = (t ++ [Call WriteToFileSystem])%list.
Proof.
  intros Hrun.
  destruct (setup_logging env (log_level (cli w)) (logger_config (cli w)) w)
    as [[[] | e] w1] eqn:Hsetup.
  - destruct (string_dec (series_name (cli w)) "") as [Hname | Hname].
    + left. split; [exact Hname |].
      rewrite (main_unnamed env w w1 Hsetup Hname) in Hrun.
      injection Hrun as <-.
      assert (Hkeep : keeps searches
                (setup_logging env (log_level (cli w)) (logger_config (cli w)))).
      { unfold setup_logging. destruct (str_truthy (logger_config (cli w)));
          keeps_all (@searches_app Soup Config). }
      specialize (Hkeep w). now rewrite Hsetup in Hkeep.
    + right. rewrite (main_named env w w1 Hsetup Hname) in Hrun.
      unfold bind at 1 in Hrun.
      destruct (resolve env (series_name (cli w)) _) as [[found | e] w2];
        [| discriminate].
      now apply (parse_and_persist_returns found w2 w').
  - rewrite (main_setup_raises env w w1 e Hsetup) in Hrun. discriminate.
Qed.

End Outcomes.

(** ** Beyond the claims: the index shown is the index accepted *)

Section Numerals.

Lemma digit_is_no_space c : is_digit c = true -> is_space c = false.
Proof. destruct c as [[] [] [] [] [] [] [] []]; intros H; try reflexivity; discriminate H. Qed.

Lemma digit_is_no_sign c :
  is_digit c = true -> Ascii.eqb c "-" = false /\ Ascii.eqb c "+" = false.
Proof.
  destruct c as [[] [] [] [] [] [] [] []]; intros H; split;
    try reflexivity; discriminate H.
Qed.

Lemma lstrip_digit c t : is_digit c = true -> lstrip (c :: t) = c :: t.
Proof. intros H. simpl. now rewrite (digit_is_no_space c H). Qed.

Lemma strip_digits (s : list ascii) :
  Forall (fun c => is_digit c = true) s -> strip s = s.
Proof.
  intros Hall. unfold strip. destruct s as [| c t]; [reflexivity |].
  rewrite (lstrip_digit c t) by now inversion Hall.
  apply Forall_rev in Hall.
  destruct (rev (c :: t)) as [| c' t'] eqn:Hrev.
  - apply (f_equal (@rev ascii)) in Hrev. rewrite rev_involutive in Hrev.
    discriminate Hrev.
  - rewrite (lstrip_digit c' t') by now inversion Hall.
    rewrite <- Hrev. apply rev_involutive.
Qed.

Lemma numeral_is_digits (d : Decimal.uint) :
  Forall (fun c => is_digit c = true)
         (list_ascii_of_string (NilEmpty.string_of_uint d)).
Proof. induction d; simpl; constructor; (reflexivity || assumption). Qed.

Lemma digits_of_numeral (d : Decimal.uint) : forall (acc : nat) (after_digit : bool),
  d <> Decimal.Nil \/ after_digit = true ->
  digits (list_ascii_of_string (NilEmpty.string_of_uint d)) (Z.of_nat acc) after_digit =
  Some (Z.of_nat (Nat.of_uint_acc d acc)).
Proof.
  induction d; intros acc after_digit Hok;
    [destruct Hok as [Hnil | ->]; [now destruct Hnil | reflexivity] | ..];
    cbn [NilEmpty.string_of_uint list_ascii_of_string digits Nat.of_uint_acc];
    match goal with
    | |- context [is_digit ?c] => change (is_digit c) with true
    end;
    cbv iota;
    match goal with
    | |- digits _ ?z true = Some (Z.of_nat (Nat.of_uint_acc _ ?n)) =>
        replace z with (Z.of_nat n)
          by (rewrite Nat.tail_mul_spec; unfold digit_val; simpl nat_of_ascii;
              simpl Nat.sub; lia)
    end;
    apply IHd; now right.
Qed.

Lemma to_little_uint_nonnil (n : nat) : forall acc,
  acc <> Decimal.Nil -> Nat.to_little_uint n acc <> Decimal.Nil.
Proof.
  induction n as [| n IH]; intros acc Hacc; simpl; [exact Hacc |].
  apply IH. now destruct acc.
Qed.

Lemma to_uint_nonnil (n : nat) : Nat.to_uint n <> Decimal.Nil.
Proof.
  unfold Nat.to_uint. intros Hnil.
  apply DecimalFacts.rev_nil_inv in Hnil.
  now apply (to_little_uint_nonnil n Decimal.zero).
Qed.

(** [int] reads back every index the listing prints. *)
Lemma int_str_of_nat (n : nat) : int (str_of_nat n) = Some (Z.of_nat n).
Proof.
  unfold int, str_of_nat.
  rewrite (strip_digits _ (numeral_is_digits (Nat.to_uint n))).
  pose proof (numeral_is_digits (Nat.to_uint n)) as Hall.
  pose proof (digits_of_numeral (Nat.to_uint n) 0 false
                (or_introl (to_uint_nonnil n))) as Hval.
  destruct (list_ascii_of_string (NilEmpty.string_of_uint (Nat.to_uint n)))
    as [| c t] eqn:Hchars.
  - simpl in Hval. discriminate Hval.
  - inversion Hall as [| c0 t0 Hc Ht]; subst.
    destruct (digit_is_no_sign c Hc) as [-> ->].
    change (Z.of_nat 0) with 0 in Hval. rewrite Hval.
    change (Nat.of_uint_acc (Nat.to_uint n) 0) with (Nat.of_uint (Nat.to_uint n)).
    now rewrite DecimalNat.Unsigned.of_to.
Qed.

End Numerals.

Section Choosing.
Context {S Soup Config : Type} (env : Env S Soup Config).

Lemma getitem_In {A : Type} (l : list A) (i : Z) (a : A) :
  getitem l i = Some a -> In a l.
Proof.
  unfold getitem.
  destruct ((0 <=? i) && (i <? Z.of_nat (length l)));
    [| destruct ((- Z.of_nat (length l) <=? i) && (i <? 0)); [| discriminate]];
    apply nth_error_In.
Qed.

(** X9. Whatever position the listing prints in front of a title, typing
    that very numeral selects that candidate: it is the one echoed and the
    one checked again, and [resolve] ends as that check ends. *)
Theorem listed_index_selects_its_candidate
    name (w : world S Soup Config) s1 results s2 s3 rest i r out s4 :
  WikipediaSeries env (ext w) = (Ok tt, s1) ->
  search_by_name env name s1 = (Ok results, s2) ->
  check_for_match_in_result env results s2 = (Ok VNone, s3) ->
  nth_error results i = Some r ->
  stdin w = str_of_nat i :: rest ->
  check_for_match_in_result env [r] s3 = (out, s4) ->
  nth_error (candidate_lines results) i = Some (str_of_nat i ++ ":" ++ title r) /\
  resolve env name w =
  (out, mkWorld (cli w) s4 rest
          (trace w ++ opening name results ++ chosen_trace results r)).
Proof.
  intros Hnew Hsearch Hcheck Hnth Hin Hagain. split.
  - now apply candidate_lines_nth.
  - assert (Hget : getitem results (Z.of_nat i) = Some r).
    { rewrite getitem_front.
      - now rewrite Nat2Z.id.
      - assert (i < length results)%nat by (apply nth_error_Some; congruence). lia. }
    rewrite (resolve_unmatched env name w s1 results s2 s3 Hnew Hsearch Hcheck).
    rewrite (disambiguate_chosen env results VNone
               (mkWorld (cli w) s3 (stdin w) (trace w ++ opening name results))
               (str_of_nat i) rest (Z.of_nat i) r out s4
               Hin (int_str_of_nat i) Hget Hagain).
    simpl. now rewrite <- app_assoc.
Qed.

(** **** Where [resolve] stops when a collaborator raises *)

Lemma resolve_new_raises name (w : world S Soup Config) e s1 :
  WikipediaSeries env (ext w) = (Raise e, s1) ->
  resolve env name w =
  (Raise e, mkWorld (cli w) s1 (stdin w) (trace w ++ [Call NewSeries])).
Proof.
  intros Hnew. unfold resolve.
  now rewrite (bind_raise _ _ _ _ _ (outside_run _ _ _ _ _ Hnew)).
Qed.

Lemma resolve_search_raises name (w : world S Soup Config) s1 e s2 :
  WikipediaSeries env (ext w) = (Ok tt, s1) ->
  search_by_name env name s1 = (Raise e, s2) ->
  resolve env name w =
  (Raise e,
   mkWorld (cli w) s2 (stdin w)
     (trace w ++ [Call NewSeries; Call (SearchByName name)])).
Proof.
  intros Hnew Hsearch. unfold resolve.
  rewrite (bind_ok _ _ _ _ _ (outside_run _ _ _ _ _ Hnew)).
  set (w1 := mkWorld (cli w) s1 (stdin w) (trace w ++ [Call NewSeries])).
  rewrite (bind_raise _ _ w1 _ _ (outside_run _ _ w1 _ _ Hsearch)).
  subst w1. simpl. now rewrite <- app_assoc.
Qed.

Lemma resolve_check_raises name (w : world S Soup Config) s1 results s2 e s3 :
  WikipediaSeries env (ext w) = (Ok tt, s1) ->
  search_by_name env name s1 = (Ok results, s2) ->
  check_for_match_in_result env results s2 = (Raise e, s3) ->
  resolve env name w =
  (Raise e, mkWorld (cli w) s3 (stdin w) (trace w ++ opening name results)).
Proof.
  intros Hnew Hsearch Hcheck. unfold resolve.
  rewrite (bind_ok _ _ _ _ _ (outside_run _ _ _ _ _ Hnew)).
  set (w1 := mkWorld (cli w) s1 (stdin w) (trace w ++ [Call NewSeries])).
  rewrite (bind_ok _ _ w1 _ _ (outside_run _ _ w1 _ _ Hsearch)).
  set (w2 := mkWorld (cli w1) s2 (stdin w1) (trace w1 ++ [Call (SearchByName name)])).
  rewrite (bind_raise _ _ w2 _ _ (outside_run _ _ w2 _ _ Hcheck)).
  subst w2 w1. simpl. unfold opening. now rewrite <- !app_assoc.
Qed.

(** X10. A value [resolve] returns is never the operator's pick as such:
    it is always what [check_for_match_in_result] returned last, called
    either on the whole list the search gave or on the one-element list of
    a candidate taken from it. *)
Theorem returned_match_comes_from_the_check
    name (w : world S Soup Config) s1 results s2 v w' :
  WikipediaSeries env (ext w) = (Ok tt, s1) ->
  search_by_name env name s1 = (Ok results, s2) ->
  resolve env name w = (Ok v, w') ->
  exists candidates s,
    (candidates = results \/ exists r, In r results /\ candidates = [r]) /\
    check_for_match_in_result env candidates s = (Ok v, ext w').
Proof.
  intros Hnew Hsearch Hrun.
  destruct (check_for_match_in_result env results s2) as [[found | e] s3] eqn:Hcheck.
  - destruct found as [| m].
    + rewrite (resolve_unmatched env name w s1 results s2 s3 Hnew Hsearch Hcheck) in Hrun.
      set (w2 := mkWorld (cli w) s3 (stdin w) (trace w ++ opening name results)) in Hrun.
      destruct (stdin w) as [| line rest] eqn:Hin.
      * rewrite (disambiguate_eof env results VNone w2 eq_refl) in Hrun. discriminate.
      * destruct (int line) as [c |] eqn:Hint.
        -- destruct (getitem results c) as [r |] eqn:Hget.
           ++ rewrite (disambiguate_chosen env results VNone w2 line rest c r
                         (fst (check_for_match_in_result env [r] s3))
                         (snd (check_for_match_in_result env [r] s3))
                         eq_refl Hint Hget (surjective_pairing _)) in Hrun.
              injection Hrun as Hout <-. simpl.
              exists [r], s3. split.
              ** right. exists r. split; [now apply (getitem_In results c) | reflexivity].
              ** rewrite <- Hout. apply surjective_pairing.
           ++ rewrite (disambiguate_out_of_range env results VNone w2 line rest c
                         eq_refl Hint Hget) in Hrun. discriminate.
        -- rewrite (disambiguate_not_int env results VNone w2 line rest eq_refl Hint) in Hrun.
           discriminate.
    + rewrite (resolve_checked env name w s1 results s2 (VResult m) s3
                 Hnew Hsearch Hcheck) in Hrun.
      simpl in Hrun. injection Hrun as <- <-. simpl.
      exists results, s2. split; [now left | exact Hcheck].
  - rewrite (resolve_check_raises name w s1 results s2 e s3 Hnew Hsearch Hcheck) in Hrun.
    discriminate.
Qed.

(** X11. [resolve] puts the question to the operator only after the
    constructor and the search have returned and the check on the whole
    result list has returned [None]; when any of them raises, or the check
    finds a match, nobody is asked. *)
Theorem asked_only_after_an_unmatched_check name (w : world S Soup Config) :
  filter is_prompt (trace (snd (resolve env name w))) <> filter is_prompt (trace w) ->
  exists s1 results s2 s3,
    WikipediaSeries env (ext w) = (Ok tt, s1) /\
    search_by_name env name s1 = (Ok results, s2) /\
    check_for_match_in_result env results s2 = (Ok VNone, s3).
Proof.
  intros Hasked.
  destruct (WikipediaSeries env (ext w)) as [[[] | e] s1] eqn:Hnew.
  - destruct (search_by_name env name s1) as [[results | e] s2] eqn:Hsearch.
    + destruct (check_for_match_in_result env results s2)
        as [[[| m] | e] s3] eqn:Hcheck.
      * now exists s1, results, s2, s3.
      * exfalso. apply Hasked.
        rewrite (resolve_checked env name w s1 results s2 (VResult m) s3
                   Hnew Hsearch Hcheck).
        simpl. rewrite filter_app. simpl. apply app_nil_r.
      * exfalso. apply Hasked.
        rewrite (resolve_check_raises name w s1 results s2 e s3 Hnew Hsearch Hcheck).
        simpl. rewrite filter_app. simpl. apply app_nil_r.
    + exfalso. apply Hasked.
      rewrite (resolve_search_raises name w s1 e s2 Hnew Hsearch).
      simpl. rewrite filter_app. simpl. apply app_nil_r.
  - exfalso. apply Hasked.
    rewrite (resolve_new_raises name w e s1 Hnew).
    simpl. rewrite filter_app. simpl. apply app_nil_r.
Qed.

End Choosing.

Section Logging.
Context {S Soup Config : Type} (env : Env S Soup Config).

(** X2. A configuration file that holds well-formed JSON which
    [logging.config.dictConfig] rejects with a [ValueError] gets the same
    treatment as broken JSON: the message that the file is not valid json,
    then [SystemExit(1)]. *)
Theorem rejected_configuration_is_reported_as_bad_json
    lvl path (w : world S Soup Config) text s1 configuration e s2 :
  path <> "" ->
  open_read env path (ext w) = (Ok text, s1) ->
  json_loads env text = Ok configuration ->
  dictConfig env configuration s1 = (Raise e, s2) ->
  isinstance_ValueError e = true ->
  setup_logging env lvl path w =
  (Raise (SystemExit 1),
   mkWorld (cli w) s2 (stdin w)
     (trace w ++ [Call (OpenRead path); Call (DictConfig configuration);
                  Stdout (not_json_message path)])).
Proof.
  intros Hpath Hopen Hjson Hdict Hclass.
  unfold setup_logging. rewrite (str_truthy_nonempty _ Hpath). unfold try_except.
  rewrite (bind_ok _ _ _ _ _ (outside_run _ _ _ _ _ Hopen)).
  rewrite Hjson.
  set (w1 := mkWorld (cli w) s1 (stdin w) (trace w ++ [Call (OpenRead path)])).
  rewrite (bind_ok (inside (Ok configuration)) _ w1 configuration w1 eq_refl).
  rewrite (outside_run _ _ w1 _ _ Hdict). rewrite Hclass.
  unfold bind, emit, throw. subst w1. simpl. now rewrite <- !app_assoc.
Qed.

(** X3. A configuration file that cannot be opened or read is not
    handled: when [open] or [read] raises anything but a [ValueError],
    such as [FileNotFoundError], that exception leaves [main] as it is, no
    message is printed and nothing else is done. *)
Theorem unreadable_log_config_is_not_handled (w : world S Soup Config) e s1 :
  logger_config (cli w) <> "" ->
  open_read env (logger_config (cli w)) (ext w) = (Raise e, s1) ->
  isinstance_ValueError e = false ->
  main env w =
  (Raise e,
   mkWorld (cli w) s1 (stdin w)
     (trace w ++ [Call (OpenRead (logger_config (cli w)))])).
Proof.
  intros Hpath Hopen Hclass.
  apply main_setup_raises.
  unfold setup_logging. rewrite (str_truthy_nonempty _ Hpath). unfold try_except.
  rewrite (bind_raise _ _ _ _ _ (outside_run _ _ _ _ _ Hopen)).
  now rewrite Hclass.
Qed.

(** X4. With a configuration file given, the log level of the command
    line has no effect: [setup_logging] does the same for every level, and
    [coloredlogs.install] is not called. *)
Theorem log_level_is_ignored_with_a_config lvl lvl' path (w : world S Soup Config) :
  path <> "" ->
  setup_logging env lvl path w = setup_logging env lvl' path w /\
  filter is_install (trace (snd (setup_logging env lvl path w))) =
  filter is_install (trace w).
Proof.
  intros Hpath. unfold setup_logging. rewrite (str_truthy_nonempty _ Hpath).
  split; [reflexivity |].
  revert w.
  match goal with
  | |- forall w, filter is_install (trace (snd (?c w))) = _ =>
      change (keeps (filter is_install) c)
  end.
  keeps_all (@filter_app_events Soup Config is_install).
Qed.

End Logging.

Section Stopping.
Context {S Soup Config : Type} (env : Env S Soup Config).

(** X12. When the search itself raises, [main] ends with that very
    exception right after the search call: there is no handler, the
    operator is not asked, and nothing is fetched, parsed or written. *)
Theorem failed_search_ends_the_run (w w1 : world S Soup Config) s1 e s2 :
  setup_logging env (log_level (cli w)) (logger_config (cli w)) w = (Ok tt, w1) ->
  series_name (cli w) <> "" ->
  WikipediaSeries env (ext w1) = (Ok tt, s1) ->
  search_by_name env (series_name (cli w)) s1 = (Raise e, s2) ->
  main env w =
  (Raise e,
   mkWorld (cli w1) s2 (stdin w1)
     (trace w1 ++ [Log info ("seacrching for " ++ series_name (cli w));
                   Call NewSeries; Call (SearchByName (series_name (cli w)))])).
Proof.
  intros Hsetup Hname Hnew Hsearch.
  apply (main_resolve_raises env w w1 _ e Hsetup Hname).
  rewrite (resolve_search_raises env (series_name (cli w))
             (mkWorld (cli w1) (ext w1) (stdin w1)
                (trace w1 ++ [Log info ("seacrching for " ++ series_name (cli w))]))
             s1 e s2 Hnew Hsearch).
  simpl. now rewrite <- app_assoc.
Qed.

(** X13. When the check finds nothing and standard input is at its end,
    the candidates are still listed and the question is still put; the run
    then ends in [EOFError], with nothing indexed and no second check. *)
Theorem end_of_input_is_EOFError name (w : world S Soup Config) s1 results s2 s3 :
  WikipediaSeries env (ext w) = (Ok tt, s1) ->
  search_by_name env name s1 = (Ok results, s2) ->
  check_for_match_in_result env results s2 = (Ok VNone, s3) ->
  stdin w = [] ->
  resolve env name w =
  (Raise EOFError,
   mkWorld (cli w) s3 [] (trace w ++ opening name results ++ asked_trace results)).
Proof.
  intros Hnew Hsearch Hcheck Hin.
  rewrite (resolve_unmatched env name w s1 results s2 s3 Hnew Hsearch Hcheck).
  rewrite (disambiguate_eof env results VNone
             (mkWorld (cli w) s3 (stdin w) (trace w ++ opening name results)) Hin).
  simpl. now rewrite <- app_assoc.
Qed.

End Stopping.

(** ** The further properties on the concrete worlds *)

Module MoreRuns.

(** X2 on the rejected configuration of [Faulty]. *)
Lemma rejected_configuration_is_reported_as_bad_json_witness :
  setup_logging Faulty.env warning "schema.json" (Demo.start "schema.json" "Dark" []) =
  (Raise (SystemExit 1),
   mkWorld (mkArgs "schema.json" info "Dark") 2%nat []
     [Call (OpenRead "schema.json"); Call (DictConfig true);
      Stdout (not_json_message "schema.json")]).
Proof.
  refine (rejected_configuration_is_reported_as_bad_json Faulty.env warning
            "schema.json" (Demo.start "schema.json" "Dark" []) "{}" 1%nat true
            ValueError 2%nat _ eq_refl eq_refl eq_refl eq_refl).
  discriminate.
Defined.

(** X3 on the missing file of [Faulty]. *)
Lemma unreadable_log_config_is_not_handled_witness :
  main Faulty.env (Demo.start "missing.json" "Dark" ["1"]) =
  (Raise (Exn "FileNotFoundError"),
   mkWorld (mkArgs "missing.json" info "Dark") 1%nat ["1"]
     [Call (OpenRead "missing.json")]).
Proof.
  refine (unreadable_log_config_is_not_handled Faulty.env
            (Demo.start "missing.json" "Dark" ["1"]) (Exn "FileNotFoundError") 1%nat
            _ eq_refl eq_refl).
  discriminate.
Defined.

(** X4 on a well-formed configuration. *)
Lemma log_level_is_ignored_with_a_config_witness :
  setup_logging Demo.env debug "good.json" (Demo.start "good.json" "Dark" []) =
  setup_logging Demo.env critical "good.json" (Demo.start "good.json" "Dark" []) /\
  filter is_install
    (trace (snd (setup_logging Demo.env debug "good.json"
                   (Demo.start "good.json" "Dark" [])))) = [].
Proof.
  refine (log_level_is_ignored_with_a_config Demo.env debug critical "good.json"
            (Demo.start "good.json" "Dark" []) _).
  discriminate.
Defined.

(** X6 on the run for "Chernobyl". *)
Lemma normal_return_means_written_witness :
  (series_name (mkArgs "" info "Chernobyl") = "" /\
   searches (trace (snd (main Demo.env (Demo.start "" "Chernobyl" [])))) = []) \/
  exists t,
    trace (snd (main Demo.env (Demo.start "" "Chernobyl" []))) =
    (t ++ [Call WriteToFileSystem])%list.
Proof.
  exact (normal_return_means_written Demo.env (Demo.start "" "Chernobyl" [])
           (snd (main Demo.env (Demo.start "" "Chernobyl" []))) eq_refl).
Defined.

(** X9 on "Dark", the operator typing the numeral listed before the film. *)
Lemma listed_index_selects_its_candidate_witness :
  nth_error (candidate_lines (Demo.search "Dark")) 2 = Some "2:Dark (film)" /\
  resolve Demo.env "Dark" (Demo.start "" "Dark" ["2"]) =
  (Ok VNone,
   mkWorld (mkArgs "" info "Dark") 4%nat []
     (opening "Dark" (Demo.search "Dark")
        ++ chosen_trace (Demo.search "Dark") Demo.dark_film)).
Proof.
  exact (listed_index_selects_its_candidate Demo.env "Dark" (Demo.start "" "Dark" ["2"])
           1%nat (Demo.search "Dark") 2%nat 3%nat [] 2%nat Demo.dark_film
           (Ok VNone) 4%nat eq_refl eq_refl eq_refl eq_refl eq_refl eq_refl).
Defined.

(** X10 on "Dark", the operator typing 1. *)
Lemma returned_match_comes_from_the_check_witness :
  exists candidates s,
    (candidates = Demo.search "Dark" \/
     exists r, In r (Demo.search "Dark") /\ candidates = [r]) /\
    check_for_match_in_result Demo.env candidates s =
    (Ok (VResult Demo.dark_series), 4%nat).
Proof.
  exact (returned_match_comes_from_the_check Demo.env "Dark"
           (Demo.start "" "Dark" ["1"]) 1%nat (Demo.search "Dark") 2%nat
           (VResult Demo.dark_series)
           (snd (resolve Demo.env "Dark" (Demo.start "" "Dark" ["1"])))
           eq_refl eq_refl eq_refl).
Defined.

(** X11 on "Dark": the question was put, so the check had found nothing. *)
Lemma asked_only_after_an_unmatched_check_witness :
  exists s1 results s2 s3,
    WikipediaSeries Demo.env 0%nat = (Ok tt, s1) /\
    search_by_name Demo.env "Dark" s1 = (Ok results, s2) /\
    check_for_match_in_result Demo.env results s2 = (Ok VNone, s3).
Proof.
  refine (asked_only_after_an_unmatched_check Demo.env "Dark"
            (Demo.start "" "Dark" ["1"]) _).
  vm_compute. discriminate.
Defined.

(** X12 on the unreachable wiki of [Faulty]. *)
Lemma failed_search_ends_the_run_witness :
  main Faulty.env (Demo.start "" "Dark" ["1"]) =
  (Raise (Exn "ConnectionError"),
   mkWorld (mkArgs "" info "Dark") 3%nat ["1"]
     [Call (ColoredlogsInstall "INFO"); Log info "seacrching for Dark";
      Call NewSeries; Call (SearchByName "Dark")]).
Proof.
  refine (failed_search_ends_the_run Faulty.env (Demo.start "" "Dark" ["1"])
            (mkWorld (mkArgs "" info "Dark") 1%nat ["1"]
               [Call (ColoredlogsInstall "INFO")])
            2%nat (Exn "ConnectionError") 3%nat eq_refl _ eq_refl eq_refl).
  discriminate.
Defined.

(** X13 on "Dark" with nothing typed. *)
Lemma end_of_input_is_EOFError_witness :
  resolve Demo.env "Dark" (Demo.start "" "Dark" []) =
  (Raise EOFError,
   mkWorld (mkArgs "" info "Dark") 3%nat []
     (opening "Dark" (Demo.search "Dark") ++ asked_trace (Demo.search "Dark"))).
Proof.
  exact (end_of_input_is_EOFError Demo.env "Dark" (Demo.start "" "Dark" [])
           1%nat (Demo.search "Dark") 2%nat 3%nat eq_refl eq_refl eq_refl eq_refl).
Defined.

End MoreRuns.
